(** * VideoPlayer: a shallow embedding of [src/VideoPlayer.cpp]

    The program is one C++ class, [VideoPlayer], wrapped around an OpenCV
    [cv::VideoCapture].  The class keeps a capture handle, the last decoded
    image, the total number of frames, the current frame number and the
    frame rate, and moves the frame number with [nextFrame], [previousFrame]
    and [seekToFrame]; [startPlayback] maps key codes to these moves.

    OpenCV is not part of the repository.  The capture and the image type
    are therefore an interface ([VideoCapture] below) and every theorem of
    the generic part holds for all its implementations; a small in-memory
    implementation ([MemCapture]) is used to evaluate the code on concrete
    videos. *)

From Stdlib Require Import ZArith Bool List String Ascii Lia.
From Stdlib Require Import DecimalString PrimFloat FloatOps SpecFloat Uint63.
From Stdlib Require DecimalPos.
Import ListNotations.

Local Open Scope string_scope.
Local Open Scope Z_scope.

(* ================================================================== *)
(** ** C++ [int] and [double] *)
(* ================================================================== *)

Module Int.

Definition int_min : Z := - 2 ^ 31.
Definition int_max : Z := 2 ^ 31 - 1.

(** Two's complement wrap-around of a mathematical integer to 32 bits. *)
Definition wrap (z : Z) : Z := (z + 2 ^ 31) mod 2 ^ 32 - 2 ^ 31.

Definition in_range (z : Z) : Prop := int_min <= z <= int_max.

Definition in_rangeb (z : Z) : bool := (int_min <=? z) && (z <=? int_max).

Definition add (a b : Z) : Z := wrap (a + b).
Definition sub (a b : Z) : Z := wrap (a - b).

(** Implicit conversion [int -> double]; exact on 32-bit integers. *)
Definition to_double (z : Z) : float :=
  if z <? 0 then PrimFloat.opp (PrimFloat.of_uint63 (Uint63.of_Z (- z)))
  else PrimFloat.of_uint63 (Uint63.of_Z z).

(** Truncation toward zero of a finite binary64 value. *)
Definition trunc (x : spec_float) : option Z :=
  match x with
  | S754_zero _ => Some 0
  | S754_finite s m e =>
      let a := if 0 <=? e then Z.pos m * 2 ^ e else Z.pos m / 2 ^ (- e) in
      Some (if s then - a else a)
  | S754_infinity _ | S754_nan => None
  end.

(** [static_cast<int>(d)].  Where the value does not fit (undefined in C++)
    the result is the x86 "integer indefinite" value [int_min]. *)
Definition of_double (d : float) : Z :=
  match trunc (Prim2SF d) with
  | Some z => if in_rangeb z then z else int_min
  | None => int_min
  end.

(** [std::to_string(int)]. *)
Definition to_string (z : Z) : string := NilZero.string_of_int (Z.to_int z).

End Int.

(* ================================================================== *)
(** ** The OpenCV collaborator *)
(* ================================================================== *)

(** The capture properties the program uses. *)
Variant CapProp : Set :=
  | CAP_PROP_POS_FRAMES
  | CAP_PROP_FPS
  | CAP_PROP_FRAME_COUNT.

(** [cv::VideoCapture] over images [Mat], as state passing.  [cap_read c m]
    is [c.read(m)]: the image is passed by reference, so the call returns
    the success flag, the new capture state and the new content of the image
    it was given. [cap_isOpened] and [cap_get] are [const] members. *)
Class VideoCapture (Cap Mat : Type) : Type := {
  cap_new : Cap;
  mat_new : Mat;
  mat_empty : Mat -> bool;
  mat_cols : Mat -> Z;
  mat_rows : Mat -> Z;
  cap_open : Cap -> string -> bool * Cap;
  cap_isOpened : Cap -> bool;
  cap_get : Cap -> CapProp -> float;
  cap_set : Cap -> CapProp -> float -> bool * Cap;
  cap_read : Cap -> Mat -> bool * (Cap * Mat)
}.

(** The calls that change a capture, recorded in the order they are made. *)
Variant CapCall : Set :=
  | CallOpen (filename : string)
  | CallSet (prop : CapProp) (value : float)
  | CallRead.

(** Output chunks of [std::cout] and [std::cerr], one per [<<]. *)
Variant Chunk : Set :=
  | Str (s : string)
  | Num (z : Z)
  | Dbl (d : float)
  | DblFixed1 (d : float)   (* under [std::fixed << std::setprecision(1)] *)
  | Endl
  | Flush.

(** Observable effects, in program order. *)
Variant Event (Mat : Type) : Type :=
  | Cout (c : Chunk)
  | Cerr (c : Chunk)
  | NamedWindow (name : string)
  | ImShow (name : string) (frame : Mat) (overlay : string)
  | WaitKey (delay : Z)
  | DestroyAllWindows.

Arguments Cout {Mat} c.
Arguments Cerr {Mat} c.
Arguments NamedWindow {Mat} name.
Arguments ImShow {Mat} name frame overlay.
Arguments WaitKey {Mat} delay.
Arguments DestroyAllWindows {Mat}.

Definition nl : string := String (ascii_of_nat 10) "".
Definition cr : string := String (ascii_of_nat 13) "".

(* ================================================================== *)
(** ** [std::cin] *)
(* ================================================================== *)

Module Cin.

(** The characters still to come on standard input and the stream's
    state bits. *)
Record Istream : Set := mkIstream {
  ibuf : string;
  failbit : bool;
  eofbit : bool
}.

Definition good (s : Istream) : bool := negb (failbit s) && negb (eofbit s).

Definition is_space (c : ascii) : bool :=
  let n := nat_of_ascii c in
  (Nat.eqb n 32 || (Nat.leb 9 n && Nat.leb n 13))%bool.

Definition is_digit (c : ascii) : bool :=
  let n := nat_of_ascii c in (Nat.leb 48 n && Nat.leb n 57)%bool.

Definition digit_val (c : ascii) : Z := Z.of_nat (nat_of_ascii c) - 48.

Fixpoint skip_ws (s : string) : string :=
  match s with
  | EmptyString => EmptyString
  | String c r => if is_space c then skip_ws r else s
  end.

(** The longest run of decimal digits at the front of [s]: the value
    accumulated on [acc], whether a digit was seen, and what follows. *)
Fixpoint read_digits (s : string) (acc : Z) (seen : bool) : Z * bool * string :=
  match s with
  | EmptyString => (acc, seen, EmptyString)
  | String c r =>
      if is_digit c then read_digits r (10 * acc + digit_val c) true
      else (acc, seen, s)
  end.

Definition at_eof (s : string) : bool :=
  match s with EmptyString => true | String _ _ => false end.

(** [std::cin >> target] for an [int target] holding [old].  A stream that
    is not good, or that ends while white space is skipped, fails without
    writing the target; a field without digits writes 0 and fails; a value
    out of range writes the nearest bound and fails. *)
Definition extract_int (s : Istream) (old : Z) : Z * Istream :=
  if negb (good s) then (old, mkIstream (ibuf s) true (eofbit s))
  else
    match skip_ws (ibuf s) with
    | EmptyString => (old, mkIstream EmptyString true true)
    | String c r as field =>
        let neg := Ascii.eqb c "-" in
        let body := if (neg || Ascii.eqb c "+")%bool then r else field in
        let '(v, seen, rest) := read_digits body 0 false in
        let eof := at_eof rest in
        if seen then
          let v := if neg then - v else v in
          if v <? Int.int_min then (Int.int_min, mkIstream rest true eof)
          else if Int.int_max <? v then (Int.int_max, mkIstream rest true eof)
          else (v, mkIstream rest false eof)
        else (0, mkIstream rest true eof)
    end.

(** [s] cannot continue a run of digits: it is empty or starts with a
    character that is not a digit. *)
Definition field_ends (s : string) : bool :=
  match s with EmptyString => true | String c _ => negb (is_digit c) end.

(** The characters of [s] up to the first newline, and what follows it. *)
Fixpoint split_line (s : string) : string * option string :=
  match s with
  | EmptyString => (EmptyString, None)
  | String c r =>
      if Ascii.eqb c (ascii_of_nat 10) then (EmptyString, Some r)
      else let '(l, k) := split_line r in (String c l, k)
  end.

(** [std::getline(std::cin, target)] for a string holding [old]. *)
Definition getline (s : Istream) (old : string) : string * Istream :=
  if negb (good s) then (old, mkIstream (ibuf s) true (eofbit s))
  else
    match split_line (ibuf s) with
    | (l, Some r) => (l, mkIstream r false false)
    | (l, None) => (l, mkIstream EmptyString (at_eof l) true)
    end.

End Cin.

(* ================================================================== *)
(** ** The class [VideoPlayer] *)
(* ================================================================== *)

Section Player.

Context {Cap Mat : Type} {VC : VideoCapture Cap Mat}.

(** The member [cap]: the capture together with the list of the calls
    made on it so far (the list is a record of what the code did, the
    program has no such field). *)
Record Capture : Type := mkCapture {
  handle : Cap;
  calls : list CapCall
}.

Definition open (c : Capture) (filename : string) : bool * Capture :=
  let r := cap_open (handle c) filename in
  (fst r, mkCapture (snd r) (calls c ++ [CallOpen filename])).

Definition isOpened (c : Capture) : bool := cap_isOpened (handle c).

Definition get (c : Capture) (p : CapProp) : float := cap_get (handle c) p.

Definition set (c : Capture) (p : CapProp) (v : float) : bool * Capture :=
  let r := cap_set (handle c) p v in
  (fst r, mkCapture (snd r) (calls c ++ [CallSet p v])).

Definition read (c : Capture) (m : Mat) : bool * (Capture * Mat) :=
  let r := cap_read (handle c) m in
  (fst r, (mkCapture (fst (snd r)) (calls c ++ [CallRead]), snd (snd r))).

(** The data members, in declaration order. *)
Record VideoPlayer : Type := mkVideoPlayer {
  cap : Capture;
  currentFrame : Mat;
  windowName : string;
  totalFrames : Z;
  currentFrameNumber : Z;
  fps : float
}.

(** The constructor. *)
Definition newVideoPlayer : VideoPlayer :=
  {| cap := mkCapture cap_new [];
     currentFrame := mat_new;
     windowName := "Simple Video Player";
     totalFrames := 0;
     currentFrameNumber := 0;
     fps := 30%float |}.

Definition with_cap (p : VideoPlayer) (c : Capture) : VideoPlayer :=
  mkVideoPlayer c (currentFrame p) (windowName p) (totalFrames p)
                (currentFrameNumber p) (fps p).

Definition with_currentFrame (p : VideoPlayer) (m : Mat) : VideoPlayer :=
  mkVideoPlayer (cap p) m (windowName p) (totalFrames p)
                (currentFrameNumber p) (fps p).

Definition with_totalFrames (p : VideoPlayer) (n : Z) : VideoPlayer :=
  mkVideoPlayer (cap p) (currentFrame p) (windowName p) n
                (currentFrameNumber p) (fps p).

Definition with_currentFrameNumber (p : VideoPlayer) (n : Z) : VideoPlayer :=
  mkVideoPlayer (cap p) (currentFrame p) (windowName p) (totalFrames p)
                n (fps p).

Definition with_fps (p : VideoPlayer) (f : float) : VideoPlayer :=
  mkVideoPlayer (cap p) (currentFrame p) (windowName p) (totalFrames p)
                (currentFrameNumber p) f.

(** [cap.read(currentFrame)]: the held image is the buffer the capture
    writes to. *)
Definition read_currentFrame (p : VideoPlayer) : bool * VideoPlayer :=
  let r := read (cap p) (currentFrame p) in
  (fst r, with_currentFrame (with_cap p (fst (snd r))) (snd (snd r))).

(** [cap.set(cv::CAP_PROP_POS_FRAMES, n)]; the result of [set] is dropped. *)
Definition set_pos_frames (p : VideoPlayer) (n : Z) : VideoPlayer :=
  with_cap p (snd (set (cap p) CAP_PROP_POS_FRAMES (Int.to_double n))).

(** [loadVideo], lines 21-46: the result, the player and what was printed. *)
Definition loadVideo (p : VideoPlayer) (filename : string)
  : bool * VideoPlayer * list (Event Mat) :=
  let p := with_cap p (snd (open (cap p) filename)) in
  if negb (isOpened (cap p)) then
    (false, p,
     [Cerr (Str "Error: Cannot open video file: "); Cerr (Str filename);
      Cerr Endl])
  else
    let p := with_totalFrames p
               (Int.of_double (get (cap p) CAP_PROP_FRAME_COUNT)) in
    let p := with_fps p (get (cap p) CAP_PROP_FPS) in
    let p := with_currentFrameNumber p 0 in
    let r := read_currentFrame p in
    let p := snd r in
    if negb (fst r) then
      (false, p, [Cerr (Str "Error: Cannot read first frame"); Cerr Endl])
    else
      (true, p,
       [Cout (Str "Video loaded successfully:"); Cout Endl;
        Cout (Str "  Total frames: "); Cout (Num (totalFrames p)); Cout Endl;
        Cout (Str "  FPS: "); Cout (Dbl (fps p)); Cout Endl;
        Cout (Str "  Resolution: "); Cout (Num (mat_cols (currentFrame p)));
        Cout (Str "x"); Cout (Num (mat_rows (currentFrame p))); Cout Endl]).

(** [nextFrame], lines 51-61. *)
Definition nextFrame (p : VideoPlayer) : bool * VideoPlayer :=
  if currentFrameNumber p >=? Int.sub (totalFrames p) 1 then (false, p)
  else
    let r := read_currentFrame p in
    let p := snd r in
    if fst r then
      (true, with_currentFrameNumber p (Int.add (currentFrameNumber p) 1))
    else (false, p).

(** [previousFrame], lines 66-78. *)
Definition previousFrame (p : VideoPlayer) : bool * VideoPlayer :=
  if currentFrameNumber p <=? 0 then (false, p)
  else
    let p := with_currentFrameNumber p (Int.sub (currentFrameNumber p) 1) in
    let p := set_pos_frames p (currentFrameNumber p) in
    let r := read_currentFrame p in
    let p := snd r in
    if fst r then (true, p) else (false, p).

(** [seekToFrame], lines 83-95. *)
Definition seekToFrame (p : VideoPlayer) (frameNumber : Z)
  : bool * VideoPlayer :=
  if (frameNumber <? 0) || (frameNumber >=? totalFrames p) then (false, p)
  else
    let p := set_pos_frames p frameNumber in
    let r := read_currentFrame p in
    let p := snd r in
    if fst r then (true, with_currentFrameNumber p frameNumber)
    else (false, p).

Definition getCurrentFrame (p : VideoPlayer) : Z := currentFrameNumber p.
Definition getTotalFrames (p : VideoPlayer) : Z := totalFrames p.
Definition getFPS (p : VideoPlayer) : float := fps p.

(** *** Console and display *)

Record World : Type := mkWorld {
  cin : Cin.Istream;
  out : list (Event Mat)
}.

Definition emit (es : list (Event Mat)) (w : World) : World :=
  mkWorld (cin w) (out w ++ es).

(** The world [w] with a console on which [line] is typed next, followed
    by [rest]. *)
Definition typed (line rest : string) (w : World) : World :=
  mkWorld (Cin.mkIstream (line ++ rest) false false) (out w).

(** [displayFrame], lines 100-111: the clone of the held image with the
    overlay text drawn on it is what the window shows. *)
Definition displayFrame (p : VideoPlayer) (w : World) : World :=
  if negb (mat_empty (currentFrame p)) then
    let info := ("Frame: " ++ Int.to_string (Int.add (currentFrameNumber p) 1)
                 ++ "/" ++ Int.to_string (totalFrames p))%string in
    emit [ImShow (windowName p) (currentFrame p) info] w
  else w.

(** [printFrameInfo], lines 116-121. *)
Definition printFrameInfo (p : VideoPlayer) (w : World) : World :=
  let progress :=
    (Int.to_double (Int.add (currentFrameNumber p) 1)
     / Int.to_double (totalFrames p) * 100)%float in
  emit [Cout (Str (cr ++ "Frame: "));
        Cout (Num (Int.add (currentFrameNumber p) 1)); Cout (Str "/");
        Cout (Num (totalFrames p)); Cout (Str " (");
        Cout (DblFixed1 progress); Cout (Str "%)"); Cout Flush] w.

(** The loop's variables after one pass of the [switch]. *)
Record Loop : Type := mkLoop {
  loop_player : VideoPlayer;
  loop_world : World;
  loop_playing : bool;
  loop_quit : bool
}.

Definition end_of_video (r : bool * VideoPlayer) (w : World) (playing : bool)
  : Loop :=
  if negb (fst r) then
    mkLoop (snd r)
           (emit [Cout (Str (nl ++ "End of video reached")); Cout Endl] w)
           false false
  else mkLoop (snd r) w playing false.

(** The [switch (key)] of lines 155-217.  [garbage] is the indeterminate
    content of the uninitialised local [targetFrame]. *)
Definition handle_key (garbage : Z) (key : Z) (p : VideoPlayer) (w : World)
                      (playing : bool) : Loop :=
  match key with
  | 113 | 81 => mkLoop p w playing true
  | 32 =>
      let playing := negb playing in
      mkLoop p
        (emit [Cout (Str nl);
               Cout (Str (if playing then "▶ Playing" else "⏸ Paused"));
               Cout Endl] w)
        playing false
  | 100 | 68 => end_of_video (nextFrame p) w playing
  | 97 | 65 =>
      let r := previousFrame p in
      if negb (fst r) then
        mkLoop (snd r)
          (emit [Cout (Str (nl ++ "Beginning of video reached")); Cout Endl] w)
          playing false
      else mkLoop (snd r) w playing false
  | 104 | 72 =>
      let r := seekToFrame p 0 in
      mkLoop (snd r)
        (emit [Cout (Str (nl ++ "Jumped to first frame")); Cout Endl] w)
        playing false
  | 101 | 69 =>
      let r := seekToFrame p (Int.sub (totalFrames p) 1) in
      mkLoop (snd r)
        (emit [Cout (Str (nl ++ "Jumped to last frame")); Cout Endl] w)
        playing false
  | 103 | 71 =>
      let w := emit [Cout (Str (nl ++ "Enter frame number (1-"));
                     Cout (Num (totalFrames p)); Cout (Str "): ")] w in
      let x := Cin.extract_int (cin w) garbage in
      let targetFrame := fst x in
      let w := mkWorld (snd x) (out w) in
      if (targetFrame >=? 1) && (targetFrame <=? totalFrames p) then
        let r := seekToFrame p (Int.sub targetFrame 1) in
        mkLoop (snd r)
          (emit [Cout (Str "Jumped to frame "); Cout (Num targetFrame);
                 Cout Endl] w)
          playing false
      else
        mkLoop p (emit [Cout (Str "Invalid frame number!"); Cout Endl] w)
               playing false
  | _ =>
      if playing then end_of_video (nextFrame p) w playing
      else mkLoop p w playing false
  end.

(** The [while (!quit)] loop of lines 148-218 over the results [keys] of the
    successive [cv::waitKey] calls.  The last component tells whether the
    loop was left; it is [false] when the keys run out, where the program
    is waiting in [cv::waitKey]. *)
Fixpoint playback_loop (garbage : Z) (keys : list Z) (p : VideoPlayer)
                       (w : World) (playing : bool)
  : VideoPlayer * World * bool :=
  let w := printFrameInfo p (displayFrame p w) in
  let w := emit [WaitKey (if playing then 33 else 0)] w in
  match keys with
  | [] => (p, w, false)
  | k :: keys =>
      let l := handle_key garbage (Z.land k 255) p w playing in
      if loop_quit l then (loop_player l, loop_world l, true)
      else
        playback_loop garbage keys (loop_player l) (loop_world l)
                      (loop_playing l)
  end.

Definition controls : list string :=
  [ nl ++ "=== Simple Video Player Controls ===";
    "SPACE    : Play/Pause";
    "→ or D   : Next frame";
    "← or A   : Previous frame";
    "HOME     : Go to first frame";
    "END      : Go to last frame";
    "G        : Go to specific frame";
    "ESC or Q : Quit";
    "===================================" ++ nl ]%string.

(** [startPlayback], lines 126-222. *)
Definition startPlayback (garbage : Z) (keys : list Z) (p : VideoPlayer)
                         (w : World) : VideoPlayer * World * bool :=
  if mat_empty (currentFrame p) then
    (p, emit [Cerr (Str "No video loaded!"); Cerr Endl] w, true)
  else
    let w := emit [NamedWindow (windowName p)] w in
    let w := emit (flat_map (fun s => [Cout (Str s); Cout Endl]) controls) w in
    let '(p, w, returned) := playback_loop garbage keys p w false in
    if returned then
      (p, emit [DestroyAllWindows; Cout (Str (nl ++ "Playback stopped."));
                Cout Endl] w, true)
    else (p, w, false).

(** [main], lines 247-272: the exit code ([None] while the program is still
    waiting for a key) and the final world. *)
Definition main (garbage : Z) (keys : list Z) (argv : list string) (w : World)
  : option Z * World :=
  let w := emit [Cout (Str "=== Video Player ==="); Cout Endl;
                 Cout (Str ("Built with OpenCV " ++ nl)); Cout Endl] w in
  let '(videoFile, w) :=
    match argv with
    | _ :: a :: _ => (a, w)
    | _ =>
        let w := emit [Cout (Str "Enter video file path: ")] w in
        let x := Cin.getline (cin w) "" in
        (fst x, mkWorld (snd x) (out w))
    end in
  let '(ok, p, printed) := loadVideo newVideoPlayer videoFile in
  let w := emit printed w in
  if ok then
    let '(_, w, returned) := startPlayback garbage keys p w in
    (if returned then Some 0 else None, w)
  else
    (Some (-1),
     emit [Cerr (Str "Failed to load video: "); Cerr (Str videoFile);
           Cerr Endl] w).

End Player.

Arguments Capture : clear implicits.
Arguments VideoPlayer : clear implicits.
Arguments World : clear implicits.
Arguments Loop : clear implicits.

(* ================================================================== *)
(** ** Sequences of navigation calls *)
(* ================================================================== *)

(** One call of a navigation member. *)
Variant Op : Set :=
  | OpNext
  | OpPrevious
  | OpSeek (frameNumber : Z).

Section Calls.

Context {Cap Mat : Type} {VC : VideoCapture Cap Mat}.

Definition run_op (o : Op) (p : VideoPlayer Cap Mat)
  : bool * VideoPlayer Cap Mat :=
  match o with
  | OpNext => nextFrame p
  | OpPrevious => previousFrame p
  | OpSeek n => seekToFrame p n
  end.

(** The calls [ops] one after the other, whatever each returns. *)
Fixpoint run_ops (ops : list Op) (p : VideoPlayer Cap Mat)
  : VideoPlayer Cap Mat :=
  match ops with
  | [] => p
  | o :: ops => run_ops ops (snd (run_op o p))
  end.

(** [n] calls of [nextFrame]: what each returned, and the player after
    the last. *)
Fixpoint advance_n (n : nat) (p : VideoPlayer Cap Mat)
  : list bool * VideoPlayer Cap Mat :=
  match n with
  | O => ([], p)
  | S n =>
      let r := nextFrame p in
      let rs := advance_n n (snd r) in
      (fst r :: fst rs, snd rs)
  end.

(** The next [n] sequential reads of the capture [c] into the image [m]
    all succeed. *)
Fixpoint reads_succeed (n : nat) (c : Cap) (m : Mat) : bool :=
  match n with
  | O => true
  | S n =>
      let r := cap_read c m in
      fst r && reads_succeed n (fst (snd r)) (snd (snd r))
  end.

(** The capture as it is when [run_op o p] reaches its [cap.read]: the
    member's own handle for [nextFrame], the handle after the absolute
    seek for the other two. *)
Definition handle_at_read (o : Op) (p : VideoPlayer Cap Mat) : Cap :=
  match o with
  | OpNext => handle (cap p)
  | OpPrevious =>
      snd (cap_set (handle (cap p)) CAP_PROP_POS_FRAMES
                   (Int.to_double (Int.sub (currentFrameNumber p) 1)))
  | OpSeek n =>
      snd (cap_set (handle (cap p)) CAP_PROP_POS_FRAMES (Int.to_double n))
  end.

(** The range check [run_op o p] starts with: [true] when the call returns
    at once (line 52, line 67, line 84). *)
Definition range_rejected (o : Op) (p : VideoPlayer Cap Mat) : bool :=
  match o with
  | OpNext => currentFrameNumber p >=? Int.sub (totalFrames p) 1
  | OpPrevious => currentFrameNumber p <=? 0
  | OpSeek n => (n <? 0) || (n >=? totalFrames p)
  end.

End Calls.

(* ================================================================== *)
(** ** Notions used to state properties of the event loop *)
(* ================================================================== *)

(** The key codes of the [switch] that leave the loop ([q], [Q]) and that
    open the jump-to-frame prompt ([g], [G]). *)
Definition is_quit_key (key : Z) : bool := (key =? 113) || (key =? 81).
Definition is_prompt_key (key : Z) : bool := (key =? 103) || (key =? 71).

(** What line 153 keeps of a result of [cv::waitKey]. *)
Definition low_byte (k : Z) : Z := Z.land k 255.

(** A call a navigation member may make on the capture of a video of
    [total] frames: a read, or an absolute seek to an index of the video;
    never an [open]. *)
Definition nav_call (total : Z) (c : CapCall) : Prop :=
  match c with
  | CallOpen _ => False
  | CallRead => True
  | CallSet prop v =>
      prop = CAP_PROP_POS_FRAMES
      /\ exists k, 0 <= k <= total - 1 /\ v = Int.to_double k
  end.

(** [s] holds no newline. *)
Fixpoint one_line (s : string) : bool :=
  match s with
  | EmptyString => true
  | String c r => negb (Ascii.eqb c (ascii_of_nat 10)) && one_line r
  end.

(** The file [main] loads: [argv[1]] when there is one, else the line read
    from the console. *)
Definition video_file {Mat : Type} (argv : list string) (w : World Mat)
  : string :=
  match argv with
  | _ :: a :: _ => a
  | _ => fst (Cin.getline (cin w) "")
  end.

(** The value of the decimal digits [d] read after [acc]. *)
Fixpoint horner (d : Decimal.uint) (acc : Z) : Z :=
  match d with
  | Decimal.Nil => acc
  | Decimal.D0 d => horner d (10 * acc + 0)
  | Decimal.D1 d => horner d (10 * acc + 1)
  | Decimal.D2 d => horner d (10 * acc + 2)
  | Decimal.D3 d => horner d (10 * acc + 3)
  | Decimal.D4 d => horner d (10 * acc + 4)
  | Decimal.D5 d => horner d (10 * acc + 5)
  | Decimal.D6 d => horner d (10 * acc + 6)
  | Decimal.D7 d => horner d (10 * acc + 7)
  | Decimal.D8 d => horner d (10 * acc + 8)
  | Decimal.D9 d => horner d (10 * acc + 9)
  end.

(** What one pass of the loop shows and prints for the player [p] before it
    waits for a key: the events of [displayFrame] and [printFrameInfo]. *)
Definition frame_report {Cap Mat : Type} {VC : VideoCapture Cap Mat}
    (p : VideoPlayer Cap Mat) : list (Event Mat) :=
  out (printFrameInfo p
         (displayFrame p (mkWorld (Cin.mkIstream "" false false) []))).

(* ================================================================== *)
(** ** An in-memory capture *)
(* ================================================================== *)

Module Mem.

(** An image as its rows of pixels; no rows is the empty [cv::Mat]. *)
Definition Mat : Set := list (list Z).

Definition empty (m : Mat) : bool :=
  match m with [] => true | _ :: _ => false end.

Definition cols (m : Mat) : Z :=
  match m with [] => 0 | r :: _ => Z.of_nat (List.length r) end.

Definition rows (m : Mat) : Z := Z.of_nat (List.length m).

(** A video file: its frames in order (an empty image stands for a frame
    that cannot be decoded) and the metadata its container reports. *)
Record Video : Set := mkVideo {
  frames : list Mat;
  frame_count : float;
  frame_rate : float
}.

(** A capture: the opened video, if any, and the index of the frame the
    next read delivers. *)
Record Cap : Set := mkCap {
  source : option Video;
  next : Z
}.

Definition Disk : Set := list (string * Video).

Fixpoint lookup (d : Disk) (name : string) : option Video :=
  match d with
  | [] => None
  | (n, v) :: d => if String.eqb n name then Some v else lookup d name
  end.

Definition mem_open (d : Disk) (c : Cap) (name : string) : bool * Cap :=
  match lookup d name with
  | Some v => (true, mkCap (Some v) 0)
  | None => (false, mkCap None 0)
  end.

Definition mem_isOpened (c : Cap) : bool :=
  match source c with Some _ => true | None => false end.

Definition mem_get (c : Cap) (p : CapProp) : float :=
  match source c with
  | None => 0%float
  | Some v =>
      match p with
      | CAP_PROP_POS_FRAMES => Int.to_double (next c)
      | CAP_PROP_FPS => frame_rate v
      | CAP_PROP_FRAME_COUNT => frame_count v
      end
  end.

Definition mem_set (c : Cap) (p : CapProp) (v : float) : bool * Cap :=
  match source c, p, Int.trunc (Prim2SF v) with
  | Some _, CAP_PROP_POS_FRAMES, Some n =>
      if 0 <=? n then (true, mkCap (source c) n) else (false, c)
  | _, _, _ => (false, c)
  end.

(** [release] chooses what a failed read does to the image it was given:
    [true] releases it, as the documentation of [cv::VideoCapture::read]
    says ("the method returns false and the function returns empty
    image"); [false] leaves it as it was. *)
Definition mem_read (release : bool) (c : Cap) (m : Mat) : bool * (Cap * Mat) :=
  let failed := (false, (c, if release then [] else m)) in
  match source c with
  | None => failed
  | Some v =>
      if next c <? 0 then failed
      else
        match nth_error (frames v) (Z.to_nat (next c)) with
        | Some f =>
            if empty f then failed
            else (true, (mkCap (source c) (next c + 1), f))
        | None => failed
        end
  end.

Definition capture (d : Disk) (release : bool) : VideoCapture Cap Mat :=
  {| cap_new := mkCap None 0;
     mat_new := [];
     mat_empty := empty;
     mat_cols := cols;
     mat_rows := rows;
     cap_open := mem_open d;
     cap_isOpened := mem_isOpened;
     cap_get := mem_get;
     cap_set := mem_set;
     cap_read := mem_read release |}.

(** Frame [i] of the test videos: one row of two pixels, both [i]. *)
Definition frame (i : Z) : Mat := [[i; i]].

(** Ten readable frames. *)
Definition clip : Video :=
  mkVideo (map frame [0; 1; 2; 3; 4; 5; 6; 7; 8; 9]) 10 25.

(** Ten frames announced, the one at index 3 cannot be decoded. *)
Definition gap : Video :=
  mkVideo [frame 0; frame 1; frame 2; []; frame 4; frame 5; frame 6;
           frame 7; frame 8; frame 9] 10 25.

(** Seven frames announced, none can be decoded. *)
Definition broken : Video := mkVideo [] 7 24.

(** Readable frames, but a container that reports no frame count. *)
Definition uncounted : Video :=
  mkVideo [frame 0; frame 1; frame 2] 0 15.

Definition disk : Disk :=
  [("clip.mp4", clip); ("gap.mp4", gap); ("broken.mp4", broken);
   ("uncounted.mjpg", uncounted)].

(** The two captures over [disk]. *)
Definition releasing : VideoCapture Cap Mat := capture disk true.
Definition keeping : VideoCapture Cap Mat := capture disk false.

(** A capture over [disk] that cannot seek (a live stream): every [set]
    fails and leaves the capture where it was; reads are those of
    [releasing]. *)
Definition streaming : VideoCapture Cap Mat :=
  {| cap_new := mkCap None 0;
     mat_new := [];
     mat_empty := empty;
     mat_cols := cols;
     mat_rows := rows;
     cap_open := mem_open disk;
     cap_isOpened := mem_isOpened;
     cap_get := mem_get;
     cap_set := fun c _ _ => (false, c);
     cap_read := mem_read true |}.

End Mem.

(** Players over the in-memory captures, for evaluating the code. *)
Module Demo.

Definition Player : Type := VideoPlayer Mem.Cap Mem.Mat.

Definition load (vc : VideoCapture Mem.Cap Mem.Mat) (name : string) : Player :=
  snd (fst (loadVideo (VC := vc) newVideoPlayer name)).

(** [clip.mp4] just loaded. *)
Definition clip_loaded : Player := load Mem.releasing "clip.mp4".

(** [clip.mp4] loaded and moved to frame 5. *)
Definition clip_at_5 : Player :=
  snd (seekToFrame (VC := Mem.releasing) clip_loaded 5).

(** [gap.mp4] loaded and moved to frame 2, the one before the frame that
    cannot be decoded; once with each capture. *)
Definition gap_at_2 : Player :=
  snd (seekToFrame (VC := Mem.releasing) (load Mem.releasing "gap.mp4") 2).

Definition gap_at_2_keeping : Player :=
  snd (seekToFrame (VC := Mem.keeping) (load Mem.keeping "gap.mp4") 2).

(** [gap.mp4] loaded and moved to frame 4, the one after it. *)
Definition gap_at_4 : Player :=
  snd (seekToFrame (VC := Mem.releasing) (load Mem.releasing "gap.mp4") 4).

(** [clip.mp4] on the capture that cannot seek, loaded and advanced to
    frame 1. *)
Definition live_at_1 : Player :=
  snd (nextFrame (VC := Mem.streaming) (load Mem.streaming "clip.mp4")).

(** A console on which [line] is typed next. *)
Definition console (line : string) : World Mem.Mat :=
  mkWorld (Cin.mkIstream line false false) [].

End Demo.

(* ================================================================== *)
(** * Properties *)
(* ================================================================== *)

(** ** Arithmetic on [int] *)

Lemma wrap_in_range (z : Z) : Int.in_range z -> Int.wrap z = z.
Proof.
  unfold Int.in_range, Int.wrap, Int.int_min, Int.int_max. intros H.
  rewrite Z.mod_small; lia.
Qed.

Lemma sub_exact (a b : Z) : Int.in_range (a - b) -> Int.sub a b = a - b.
Proof. apply wrap_in_range. Qed.

Lemma add_exact (a b : Z) : Int.in_range (a + b) -> Int.add a b = a + b.
Proof. apply wrap_in_range. Qed.

Lemma in_rangeb_spec (z : Z) : Int.in_rangeb z = true <-> Int.in_range z.
Proof.
  unfold Int.in_rangeb, Int.in_range.
  rewrite andb_true_iff, !Z.leb_le. tauto.
Qed.

Lemma int_min_in_range : Int.in_range Int.int_min.
Proof. unfold Int.in_range, Int.int_min, Int.int_max. lia. Qed.

(** A [static_cast<int>] is an [int]. *)
Lemma of_double_in_range (d : float) : Int.in_range (Int.of_double d).
Proof.
  unfold Int.of_double.
  destruct (Int.trunc (Prim2SF d)) as [z|]; [|apply int_min_in_range].
  destruct (Int.in_rangeb z) eqn:E; [|apply int_min_in_range].
  now apply in_rangeb_spec.
Qed.

(** ** The navigation members *)

(** Unfolds the member updates and the calls on the capture, and computes
    the projections of the records they build. *)
Ltac members :=
  unfold read_currentFrame, set_pos_frames, open, isOpened, get, set, read in *;
  cbn [with_cap with_currentFrame with_totalFrames with_currentFrameNumber
       with_fps cap currentFrame windowName totalFrames currentFrameNumber fps
       handle calls fst snd negb] in *.

Section Navigation.

Context {Cap Mat : Type} {VC : VideoCapture Cap Mat}.

Implicit Types p : VideoPlayer Cap Mat.

(** What [cap.read(currentFrame)] does to the members. *)
Lemma read_currentFrame_result p :
  fst (read_currentFrame p) = fst (cap_read (handle (cap p)) (currentFrame p)).
Proof. reflexivity. Qed.

Lemma read_currentFrame_members p :
  let q := snd (read_currentFrame p) in
  handle (cap q) = fst (snd (cap_read (handle (cap p)) (currentFrame p)))
  /\ calls (cap q) = (calls (cap p) ++ [CallRead])%list
  /\ currentFrame q = snd (snd (cap_read (handle (cap p)) (currentFrame p)))
  /\ totalFrames q = totalFrames p
  /\ currentFrameNumber q = currentFrameNumber p
  /\ fps q = fps p.
Proof. cbn. repeat split. Qed.

Lemma set_pos_frames_members p n :
  let q := set_pos_frames p n in
  handle (cap q)
  = snd (cap_set (handle (cap p)) CAP_PROP_POS_FRAMES (Int.to_double n))
  /\ calls (cap q)
     = (calls (cap p) ++ [CallSet CAP_PROP_POS_FRAMES (Int.to_double n)])%list
  /\ currentFrame q = currentFrame p
  /\ totalFrames q = totalFrames p
  /\ currentFrameNumber q = currentFrameNumber p
  /\ fps q = fps p.
Proof. cbn. repeat split. Qed.

(** No navigation member writes [totalFrames]. *)
Lemma run_op_totalFrames o p : totalFrames (snd (run_op o p)) = totalFrames p.
Proof.
  destruct o as [| |n]; cbn [run_op];
    [unfold nextFrame | unfold previousFrame | unfold seekToFrame];
    repeat match goal with |- context [if ?b then _ else _] => destruct b end;
    reflexivity.
Qed.

(** When [nextFrame] fails. *)
Lemma nextFrame_fails_iff p :
  fst (nextFrame p) = false
  <-> Int.sub (totalFrames p) 1 <= currentFrameNumber p
      \/ fst (cap_read (handle (cap p)) (currentFrame p)) = false.
Proof.
  unfold nextFrame. cbv zeta. rewrite read_currentFrame_result.
  destruct (currentFrameNumber p >=? Int.sub (totalFrames p) 1) eqn:G;
    cbn [fst].
  - split; [intros _; left; lia | reflexivity].
  - destruct (fst (cap_read (handle (cap p)) (currentFrame p))) eqn:R;
      cbn [fst]; split.
    + discriminate.
    + intros [L|L]; [lia | discriminate].
    + intros _. now right.
    + reflexivity.
Qed.

(** C3: whenever [nextFrame] returns [false] the frame number is the one
    it was before the call; and the call fails for one of two reasons, the
    frame number has reached [totalFrames - 1] (as the code computes it) or
    the sequential read failed. *)
Theorem nextFrame_failure_keeps_position p :
  fst (nextFrame p) = false ->
  currentFrameNumber (snd (nextFrame p)) = currentFrameNumber p
  /\ (Int.sub (totalFrames p) 1 <= currentFrameNumber p
      \/ fst (cap_read (handle (cap p)) (currentFrame p)) = false).
Proof.
  intros Hfail. split; [|now apply nextFrame_fails_iff].
  revert Hfail. unfold nextFrame.
  destruct (currentFrameNumber p >=? Int.sub (totalFrames p) 1); [reflexivity|].
  destruct (fst (read_currentFrame p)); cbn [fst snd]; [discriminate|].
  intros _. apply read_currentFrame_members.
Qed.

(** C9: at frame number 0 [previousFrame] returns [false], the frame
    number stays 0 and no call is made on the capture (the player is
    left exactly as it was). *)
Theorem previousFrame_at_start p :
  currentFrameNumber p = 0 ->
  fst (previousFrame p) = false
  /\ currentFrameNumber (snd (previousFrame p)) = 0
  /\ calls (cap (snd (previousFrame p))) = calls (cap p)
  /\ snd (previousFrame p) = p.
Proof.
  intros H0. unfold previousFrame. rewrite H0. cbn. auto.
Qed.

(** C5: a target below 0 or above [totalFrames - 1] makes [seekToFrame]
    return [false] with the frame number unchanged and no call made on the
    capture (the player is left exactly as it was). *)
Theorem seekToFrame_out_of_range p (n : Z) :
  n < 0 \/ totalFrames p - 1 < n ->
  fst (seekToFrame p n) = false
  /\ currentFrameNumber (snd (seekToFrame p n)) = currentFrameNumber p
  /\ calls (cap (snd (seekToFrame p n))) = calls (cap p)
  /\ snd (seekToFrame p n) = p.
Proof.
  intros Hout. unfold seekToFrame.
  assert (E : ((n <? 0) || (n >=? totalFrames p)) = true).
  { apply orb_true_iff. destruct Hout; [left|right]; lia. }
  rewrite E. cbn. auto.
Qed.

(** Past its range check [seekToFrame] seeks, reads, and writes the frame
    number only when the read succeeded. *)
Lemma seekToFrame_in_range p (n : Z) :
  0 <= n <= totalFrames p - 1 ->
  seekToFrame p n
  = if fst (read_currentFrame (set_pos_frames p n))
    then (true,
          with_currentFrameNumber
            (snd (read_currentFrame (set_pos_frames p n))) n)
    else (false, snd (read_currentFrame (set_pos_frames p n))).
Proof.
  intros Hn. unfold seekToFrame.
  assert (E : ((n <? 0) || (n >=? totalFrames p)) = false).
  { apply orb_false_iff. split; lia. }
  now rewrite E.
Qed.

(** C4: for a target in [0, totalFrames - 1] whose seek-and-read
    succeeds, [seekToFrame] returns [true] and [getCurrentFrame] then
    returns the target. *)
Theorem seekToFrame_then_getCurrentFrame p (n : Z) :
  0 <= n <= totalFrames p - 1 ->
  fst (cap_read
         (snd (cap_set (handle (cap p)) CAP_PROP_POS_FRAMES (Int.to_double n)))
         (currentFrame p)) = true ->
  fst (seekToFrame p n) = true
  /\ getCurrentFrame (snd (seekToFrame p n)) = n.
Proof.
  intros Hn Hread. unfold getCurrentFrame.
  rewrite (seekToFrame_in_range p n Hn), read_currentFrame_result.
  members. rewrite Hread. split; reflexivity.
Qed.

(** C2, as the code has it: from a frame number [n > 0], [previousFrame]
    writes [n - 1] to the frame number before it seeks and reads, and the
    frame number is [n - 1] afterwards whatever they return.  Its result
    is the result of the read alone: the result of the seek is dropped, so
    the call returns [false] exactly when the read after the seek fails,
    and [true] when that read succeeds though the seek failed.  The held
    image is what the read left. *)
Theorem previousFrame_decrement_committed p :
  0 < currentFrameNumber p <= Int.int_max ->
  let seek :=
    cap_set (handle (cap p)) CAP_PROP_POS_FRAMES
            (Int.to_double (currentFrameNumber p - 1)) in
  let r := cap_read (snd seek) (currentFrame p) in
  currentFrameNumber (snd (previousFrame p)) = currentFrameNumber p - 1
  /\ fst (previousFrame p) = fst r
  /\ (fst r = false -> fst (previousFrame p) = false)
  /\ (fst seek = false -> fst r = true -> fst (previousFrame p) = true)
  /\ currentFrame (snd (previousFrame p)) = snd (snd r)
  /\ calls (cap (snd (previousFrame p)))
     = (calls (cap p)
        ++ [CallSet CAP_PROP_POS_FRAMES
                    (Int.to_double (currentFrameNumber p - 1));
            CallRead])%list.
Proof.
  intros Hpos. cbv zeta.
  assert (E : (currentFrameNumber p <=? 0) = false) by lia.
  assert (S : Int.sub (currentFrameNumber p) 1 = currentFrameNumber p - 1).
  { apply sub_exact. unfold Int.in_range, Int.int_min, Int.int_max in *. lia. }
  assert (R : fst (previousFrame p)
              = fst (cap_read
                       (snd (cap_set (handle (cap p)) CAP_PROP_POS_FRAMES
                               (Int.to_double (currentFrameNumber p - 1))))
                       (currentFrame p))).
  { unfold previousFrame. rewrite E, read_currentFrame_result.
    members. rewrite S.
    destruct (fst (cap_read _ (currentFrame p))); reflexivity. }
  split; [|split; [exact R|split; [|split; [|split]]]].
  - unfold previousFrame. rewrite E.
    destruct (fst (read_currentFrame _)); members; exact S.
  - intros F. now rewrite R.
  - intros _ T. now rewrite R.
  - unfold previousFrame. rewrite E.
    destruct (fst (read_currentFrame _)); members; now rewrite S.
  - unfold previousFrame. rewrite E.
    destruct (fst (read_currentFrame _)); members;
      now rewrite S, <- app_assoc.
Qed.

End Navigation.

(** ** Loading *)

Section Loading.

Context {Cap Mat : Type} {VC : VideoCapture Cap Mat}.

Implicit Types p : VideoPlayer Cap Mat.

(** [loadVideo] succeeds exactly when the file opens and its first frame
    is read; the frame count plays no part. *)
Lemma loadVideo_succeeds_iff p (filename : string) :
  fst (fst (loadVideo p filename)) = true
  <-> cap_isOpened (snd (cap_open (handle (cap p)) filename)) = true
      /\ fst (cap_read (snd (cap_open (handle (cap p)) filename))
                       (currentFrame p)) = true.
Proof.
  unfold loadVideo. members.
  destruct (cap_isOpened (snd (cap_open (handle (cap p)) filename))); members.
  - destruct (fst (cap_read _ _)); members; intuition congruence.
  - intuition congruence.
Qed.

(** After a successful [loadVideo] the frame number is 0 and the total is
    the frame count of the metadata, cast to [int]. *)
Lemma loadVideo_success_members p (filename : string) :
  fst (fst (loadVideo p filename)) = true ->
  currentFrameNumber (snd (fst (loadVideo p filename))) = 0
  /\ totalFrames (snd (fst (loadVideo p filename)))
     = Int.of_double
         (cap_get (snd (cap_open (handle (cap p)) filename))
                  CAP_PROP_FRAME_COUNT).
Proof.
  unfold loadVideo. members.
  destruct (cap_isOpened (snd (cap_open (handle (cap p)) filename))); members.
  - destruct (fst (cap_read _ _)); members; [auto | discriminate].
  - discriminate.
Qed.

(** C1, as the code has it: [loadVideo] fails exactly when the file does
    not open or its first frame cannot be read (a frame count of zero is
    not looked at).  When the file does not open, the capture is not
    opened and total, rate, frame number and held image are as before.
    When the file opens and the first read fails, the capture is the one
    the failed read left (it is not released), total and rate are the
    metadata of the new file and the frame number is 0. *)
Theorem loadVideo_failure p (filename : string) :
  let o := snd (cap_open (handle (cap p)) filename) in
  let r := cap_read o (currentFrame p) in
  let q := snd (fst (loadVideo p filename)) in
  (fst (fst (loadVideo p filename)) = false
   <-> cap_isOpened o = false \/ fst r = false)
  /\ (cap_isOpened o = false ->
      isOpened (cap q) = false
      /\ totalFrames q = totalFrames p
      /\ fps q = fps p
      /\ currentFrameNumber q = currentFrameNumber p
      /\ currentFrame q = currentFrame p)
  /\ (cap_isOpened o = true -> fst r = false ->
      handle (cap q) = fst (snd r)
      /\ totalFrames q = Int.of_double (cap_get o CAP_PROP_FRAME_COUNT)
      /\ fps q = cap_get o CAP_PROP_FPS
      /\ currentFrameNumber q = 0
      /\ currentFrame q = snd (snd r)).
Proof.
  cbv zeta. unfold loadVideo. members.
  destruct (cap_isOpened (snd (cap_open (handle (cap p)) filename))) eqn:O;
    members.
  - destruct (fst (cap_read (snd (cap_open (handle (cap p)) filename))
                            (currentFrame p))) eqn:R; members.
    + repeat split; try discriminate. intros [H|H]; discriminate.
    + repeat split; auto; discriminate.
  - repeat split; auto; discriminate.
Qed.

End Loading.

(** ** Sequences of calls *)

Section Sequences.

Context {Cap Mat : Type} {VC : VideoCapture Cap Mat}.

Implicit Types p : VideoPlayer Cap Mat.

(** One call keeps a valid frame number valid. *)
Lemma run_op_keeps_position (o : Op) p :
  Int.in_range (totalFrames p) ->
  0 <= currentFrameNumber p <= totalFrames p - 1 ->
  0 <= currentFrameNumber (snd (run_op o p)) <= totalFrames p - 1.
Proof.
  intros Ht Hc.
  assert (Hsub : Int.sub (totalFrames p) 1 = totalFrames p - 1).
  { apply sub_exact. unfold Int.in_range, Int.int_min, Int.int_max in *. lia. }
  destruct o as [| |n]; cbn [run_op].
  - unfold nextFrame. rewrite Hsub.
    destruct (Z.geb_spec (currentFrameNumber p) (totalFrames p - 1)) as [G|G];
      [exact Hc|].
    destruct (fst (read_currentFrame p)); cbn; [|exact Hc].
    rewrite add_exact;
      unfold Int.in_range, Int.int_min, Int.int_max in *; lia.
  - unfold previousFrame.
    destruct (Z.leb_spec (currentFrameNumber p) 0) as [G|G]; [exact Hc|].
    assert (S : Int.sub (currentFrameNumber p) 1 = currentFrameNumber p - 1).
    { apply sub_exact.
      unfold Int.in_range, Int.int_min, Int.int_max in *. lia. }
    destruct (fst (read_currentFrame _)); cbn; rewrite S; lia.
  - unfold seekToFrame.
    destruct (Z.ltb_spec n 0) as [G|G]; [exact Hc|].
    destruct (Z.geb_spec n (totalFrames p)) as [G'|G']; [exact Hc|].
    cbn [orb].
    destruct (fst (read_currentFrame _)); cbn; lia.
Qed.

Lemma run_ops_keep_position (ops : list Op) : forall p,
  Int.in_range (totalFrames p) ->
  0 <= currentFrameNumber p <= totalFrames p - 1 ->
  0 <= currentFrameNumber (run_ops ops p) <= totalFrames p - 1
  /\ totalFrames (run_ops ops p) = totalFrames p.
Proof.
  induction ops as [|o ops IH]; intros p Ht Hc; cbn [run_ops].
  - auto.
  - pose proof (run_op_totalFrames o p) as T.
    pose proof (run_op_keeps_position o p Ht Hc) as K.
    rewrite <- T in K, Ht.
    destruct (IH _ Ht K) as [IH1 IH2].
    rewrite IH2, T in *. auto.
Qed.

(** C10: after a successful [loadVideo] that found at least one frame,
    whatever calls of [nextFrame], [previousFrame] and [seekToFrame]
    follow and whatever they return, the frame number is in
    [0, totalFrames - 1] (and [totalFrames] is what the load set). *)
Theorem position_stays_in_range p (filename : string) (ops : list Op) :
  fst (fst (loadVideo p filename)) = true ->
  1 <= totalFrames (snd (fst (loadVideo p filename))) ->
  0 <= currentFrameNumber (run_ops ops (snd (fst (loadVideo p filename))))
    <= totalFrames (snd (fst (loadVideo p filename))) - 1
  /\ totalFrames (run_ops ops (snd (fst (loadVideo p filename))))
     = totalFrames (snd (fst (loadVideo p filename))).
Proof.
  intros Hok Hone.
  destruct (loadVideo_success_members p filename Hok) as [H0 Ht].
  apply run_ops_keep_position.
  - rewrite Ht. apply of_double_in_range.
  - rewrite H0. lia.
Qed.

(** [n] calls of [nextFrame] that stay below the last index and whose
    reads succeed all return [true] and add [n] to the frame number. *)
Lemma advance_n_succeeds (n : nat) : forall p,
  Int.in_range (totalFrames p) ->
  0 <= currentFrameNumber p ->
  currentFrameNumber p + Z.of_nat n <= totalFrames p - 1 ->
  reads_succeed n (handle (cap p)) (currentFrame p) = true ->
  fst (advance_n n p) = repeat true n
  /\ currentFrameNumber (snd (advance_n n p))
     = currentFrameNumber p + Z.of_nat n
  /\ totalFrames (snd (advance_n n p)) = totalFrames p.
Proof.
  induction n as [|n IH]; intros p Ht H0 Hn Hr.
  - cbn. repeat split. lia.
  - cbn [reads_succeed] in Hr. apply andb_true_iff in Hr as [Hr1 Hr2].
    assert (Hsub : Int.sub (totalFrames p) 1 = totalFrames p - 1).
    { apply sub_exact.
      unfold Int.in_range, Int.int_min, Int.int_max in *. lia. }
    assert (Hadd : Int.add (currentFrameNumber p) 1 = currentFrameNumber p + 1).
    { apply add_exact.
      unfold Int.in_range, Int.int_min, Int.int_max in *. lia. }
    assert (G : (currentFrameNumber p >=? totalFrames p - 1) = false) by lia.
    assert (E : nextFrame p
                = (true, with_currentFrameNumber (snd (read_currentFrame p))
                           (currentFrameNumber p + 1))).
    { unfold nextFrame. rewrite Hsub, G, read_currentFrame_result, Hr1.
      cbn [fst snd]. now rewrite <- Hadd. }
    cbn [advance_n]. rewrite E. cbn [fst snd].
    destruct (IH (with_currentFrameNumber (snd (read_currentFrame p))
                    (currentFrameNumber p + 1))) as (I1 & I2 & I3).
    + exact Ht.
    + cbn. lia.
    + cbn. lia.
    + exact Hr2.
    + rewrite I1, I2, I3. cbn. repeat split. lia.
Qed.

(** C8: after loading a video of ten frames whose next nine reads
    succeed, nine calls of [nextFrame] all return [true] and leave the
    frame number at 9, and a tenth call returns [false]. *)
Theorem ten_frames_nine_advances p (filename : string) :
  fst (fst (loadVideo p filename)) = true ->
  totalFrames (snd (fst (loadVideo p filename))) = 10 ->
  reads_succeed 9 (handle (cap (snd (fst (loadVideo p filename)))))
                (currentFrame (snd (fst (loadVideo p filename)))) = true ->
  currentFrameNumber (snd (fst (loadVideo p filename))) = 0
  /\ fst (advance_n 9 (snd (fst (loadVideo p filename)))) = repeat true 9
  /\ currentFrameNumber (snd (advance_n 9 (snd (fst (loadVideo p filename)))))
     = 9
  /\ fst (nextFrame (snd (advance_n 9 (snd (fst (loadVideo p filename))))))
     = false.
Proof.
  intros Hok Hten Hreads.
  destruct (loadVideo_success_members p filename Hok) as [H0 _].
  destruct (advance_n_succeeds 9 (snd (fst (loadVideo p filename))))
    as (A1 & A2 & A3).
  - rewrite Hten. unfold Int.in_range, Int.int_min, Int.int_max. lia.
  - lia.
  - rewrite H0, Hten. cbn. lia.
  - exact Hreads.
  - rewrite H0 in A2. change (0 + Z.of_nat 9) with 9 in A2.
    split; [exact H0|]. split; [exact A1|]. split; [exact A2|].
    apply nextFrame_fails_iff. left. rewrite A2, A3, Hten.
    vm_compute. discriminate.
Qed.

(** C7, as the code has it: a call rejected by its range check returns
    [false] and leaves the player, held image and capture included, as it
    was (no read is made).  A call that passes the check makes its read on
    the held image itself: the call returns what the read returns, and
    afterwards holds what the read left in that image, the frame delivered
    when the read succeeded and whatever a failed read left otherwise. *)
Theorem held_frame_after_call (o : Op) p :
  (range_rejected o p = true -> run_op o p = (false, p))
  /\ (range_rejected o p = false ->
      fst (run_op o p) = fst (cap_read (handle_at_read o p) (currentFrame p))
      /\ currentFrame (snd (run_op o p))
         = snd (snd (cap_read (handle_at_read o p) (currentFrame p)))
      /\ handle (cap (snd (run_op o p)))
         = fst (snd (cap_read (handle_at_read o p) (currentFrame p)))).
Proof.
  destruct o as [| |n]; cbn [run_op handle_at_read range_rejected].
  - unfold nextFrame.
    destruct (currentFrameNumber p >=? Int.sub (totalFrames p) 1).
    + split; [reflexivity | discriminate].
    + split; [discriminate | intros _].
      cbv zeta. rewrite read_currentFrame_result.
      destruct (fst (cap_read (handle (cap p)) (currentFrame p)));
        members; repeat split.
  - unfold previousFrame.
    destruct (currentFrameNumber p <=? 0).
    + split; [reflexivity | discriminate].
    + split; [discriminate | intros _].
      cbv zeta. rewrite read_currentFrame_result. members.
      destruct (fst (cap_read _ (currentFrame p)));
        members; repeat split.
  - unfold seekToFrame.
    destruct ((n <? 0) || (n >=? totalFrames p)).
    + split; [reflexivity | discriminate].
    + split; [discriminate | intros _].
      cbv zeta. rewrite read_currentFrame_result. members.
      destruct (fst (cap_read _ (currentFrame p)));
        members; repeat split.
Qed.

End Sequences.

(** ** The jump-to-frame prompt *)

Section Prompt.

Context {Cap Mat : Type} {VC : VideoCapture Cap Mat}.

Implicit Types p : VideoPlayer Cap Mat.

Lemma read_digits_end (rest : string) (acc : Z) (seen : bool) :
  Cin.field_ends rest = true ->
  Cin.read_digits rest acc seen = (acc, seen, rest).
Proof.
  destruct rest as [|c rest]; cbn; [reflexivity|].
  intros H. apply negb_true_iff in H. now rewrite H.
Qed.

(** Runs [Cin.extract_int] on a good stream whose next characters are
    the digits [field], the first of them [c], followed by [rest]. *)
Ltac extract_digits c field v rest H :=
  unfold Cin.extract_int;
  change (Cin.good _) with true; cbn [negb Cin.ibuf];
  change (Cin.skip_ws (field ++ rest)) with (field ++ rest)%string;
  cbn [append]; cbv beta iota zeta;
  change (Ascii.eqb c "-") with false; change (Ascii.eqb c "+") with false;
  cbn [orb];
  let f := eval cbn [append] in (field ++ rest)%string in
  change (Cin.read_digits f 0 false) with (Cin.read_digits rest v true);
  rewrite (read_digits_end rest v true H); reflexivity.

Lemma extract_int_7 (rest : string) (old : Z) :
  Cin.field_ends rest = true ->
  Cin.extract_int (Cin.mkIstream ("7" ++ rest) false false) old
  = (7, Cin.mkIstream rest false (Cin.at_eof rest)).
Proof.
  intros H. extract_digits "7"%char "7" 7 rest H.
Qed.

Lemma extract_int_11 (rest : string) (old : Z) :
  Cin.field_ends rest = true ->
  Cin.extract_int (Cin.mkIstream ("11" ++ rest) false false) old
  = (11, Cin.mkIstream rest false (Cin.at_eof rest)).
Proof.
  intros H. extract_digits "1"%char "11" 11 rest H.
Qed.

(** A field that does not start a number writes 0 and sets [failbit]. *)
Lemma extract_int_abc (rest : string) (old : Z) :
  Cin.extract_int (Cin.mkIstream ("abc" ++ rest) false false) old
  = (0, Cin.mkIstream ("abc" ++ rest) true false).
Proof. reflexivity. Qed.

(** C6: at the prompt of key [g] (or [G]) on a video of ten frames,
    typing 7 calls [seekToFrame] with 6, and the frame number becomes 6
    when that seek-and-read succeeds; typing 11 or abc prints
    "Invalid frame number!" and leaves the player as it was. *)
Theorem jump_to_frame_prompt p (w : World Mat) (garbage key : Z)
                             (playing : bool) (rest : string) :
  key = 103 \/ key = 71 ->
  totalFrames p = 10 ->
  Cin.field_ends rest = true ->
  (fst (cap_read
          (snd (cap_set (handle (cap p)) CAP_PROP_POS_FRAMES (Int.to_double 6)))
          (currentFrame p)) = true ->
   loop_player (handle_key garbage key p (typed "7" rest w) playing)
   = snd (seekToFrame p 6)
   /\ currentFrameNumber
        (loop_player (handle_key garbage key p (typed "7" rest w) playing))
      = 6)
  /\ (loop_player (handle_key garbage key p (typed "11" rest w) playing) = p
      /\ out (loop_world
                (handle_key garbage key p (typed "11" rest w) playing))
         = (out w
            ++ [Cout (Str (nl ++ "Enter frame number (1-")); Cout (Num 10);
                Cout (Str "): ");
                Cout (Str "Invalid frame number!"); Cout Endl])%list)
  /\ (loop_player (handle_key garbage key p (typed "abc" rest w) playing) = p
      /\ out (loop_world
                (handle_key garbage key p (typed "abc" rest w) playing))
         = (out w
            ++ [Cout (Str (nl ++ "Enter frame number (1-")); Cout (Num 10);
                Cout (Str "): ");
                Cout (Str "Invalid frame number!"); Cout Endl])%list).
Proof.
  intros Hkey Hten Hrest.
  assert (Hg : forall line,
    handle_key garbage key p (typed line rest w) playing
    = handle_key garbage 103 p (typed line rest w) playing).
  { intros line. destruct Hkey; subst key; reflexivity. }
  rewrite !Hg. unfold handle_key, typed, emit.
  cbn [cin out fst snd].
  rewrite extract_int_7, extract_int_11, extract_int_abc by exact Hrest.
  cbn [fst snd]. rewrite Hten.
  change (Int.sub 7 1) with 6.
  change ((7 >=? 1) && (7 <=? 10)) with true.
  change ((11 >=? 1) && (11 <=? 10)) with false.
  change ((0 >=? 1) && (0 <=? 10)) with false.
  cbn [loop_player loop_world out].
  split; [|split].
  - intros Hread. split; [reflexivity|].
    rewrite (seekToFrame_in_range p 6) by lia.
    rewrite read_currentFrame_result. members. now rewrite Hread.
  - split; [reflexivity|]. now rewrite <- app_assoc.
  - split; [reflexivity|]. now rewrite <- app_assoc.
Qed.

End Prompt.

(* ================================================================== *)
(** * The code on the in-memory videos *)
(* ================================================================== *)

Section OnReleasingCapture.

#[local] Existing Instance Mem.releasing.

Import Demo.

(** C1 does not hold as stated.  A player at frame 5 of [clip.mp4]
    (ten frames at 25 per second) loads [broken.mp4], which opens but has
    no readable first frame: the load fails, yet the capture is open on
    the new file, the total is 7, the rate 24 and the frame number 0.
    And [uncounted.mjpg], whose frame count is zero, loads with success. *)
Lemma failed_load_overwrites_members :
  fst (fst (loadVideo clip_at_5 "broken.mp4")) = false
  /\ isOpened (cap (snd (fst (loadVideo clip_at_5 "broken.mp4")))) = true
  /\ totalFrames clip_at_5 = 10
  /\ totalFrames (snd (fst (loadVideo clip_at_5 "broken.mp4"))) = 7
  /\ fps clip_at_5 = 25%float
  /\ fps (snd (fst (loadVideo clip_at_5 "broken.mp4"))) = 24%float
  /\ currentFrameNumber clip_at_5 = 5
  /\ currentFrameNumber (snd (fst (loadVideo clip_at_5 "broken.mp4"))) = 0
  /\ fst (fst (loadVideo newVideoPlayer "uncounted.mjpg")) = true
  /\ totalFrames (snd (fst (loadVideo newVideoPlayer "uncounted.mjpg"))) = 0.
Proof. vm_compute. repeat split. Qed.

(** [loadVideo_failure] on the failing reload above, and on a file that is
    not there. *)
Lemma loadVideo_failure_witness :
  (fst (fst (loadVideo clip_at_5 "broken.mp4")) = false
   /\ totalFrames (snd (fst (loadVideo clip_at_5 "broken.mp4"))) = 7
   /\ currentFrameNumber (snd (fst (loadVideo clip_at_5 "broken.mp4"))) = 0)
  /\ (fst (fst (loadVideo clip_at_5 "missing.mp4")) = false
      /\ isOpened (cap (snd (fst (loadVideo clip_at_5 "missing.mp4")))) = false
      /\ totalFrames (snd (fst (loadVideo clip_at_5 "missing.mp4"))) = 10
      /\ currentFrameNumber (snd (fst (loadVideo clip_at_5 "missing.mp4")))
         = 5).
Proof.
  pose proof (loadVideo_failure clip_at_5 "broken.mp4") as (BF & _ & BR).
  pose proof (loadVideo_failure clip_at_5 "missing.mp4") as (MF & MU & _).
  specialize (BR eq_refl eq_refl). destruct BR as (_ & BT & _ & BN & _).
  specialize (MU eq_refl). destruct MU as (MO & MT & _ & MN & _).
  split.
  - split; [exact (proj2 BF (or_intror eq_refl))|].
    split; [exact BT | exact BN].
  - split; [exact (proj2 MF (or_introl eq_refl))|].
    split; [exact MO|]. split; [exact MT | exact MN].
Defined.

(** C2 does not hold as stated when it is the seek that fails.  On the
    capture that cannot seek, at frame 1 of [clip.mp4], the seek to frame 0
    fails and the read after it delivers the next frame of the stream,
    frame 2: [previousFrame] returns [true], with the frame number 0. *)
Lemma failed_seek_is_not_reported :
  currentFrameNumber live_at_1 = 1
  /\ fst (cap_set (VideoCapture := Mem.streaming) (handle (cap live_at_1))
                  CAP_PROP_POS_FRAMES (Int.to_double (1 - 1))) = false
  /\ fst (previousFrame (VC := Mem.streaming) live_at_1) = true
  /\ fst (previousFrame (VC := Mem.streaming) live_at_1) <> false
  /\ currentFrameNumber (snd (previousFrame (VC := Mem.streaming) live_at_1))
     = 0
  /\ currentFrame (snd (previousFrame (VC := Mem.streaming) live_at_1))
     = Mem.frame 2.
Proof. vm_compute. repeat split; discriminate. Qed.

(** [previousFrame_decrement_committed] at frame 4 of [gap.mp4]: frame 3
    cannot be read, the call fails, the frame number is 3 and the held
    image is not the one of frame 3 (it is empty). *)
Lemma previousFrame_decrement_committed_witness :
  currentFrameNumber (snd (previousFrame gap_at_4)) = 3
  /\ fst (previousFrame gap_at_4) = false
  /\ currentFrame (snd (previousFrame gap_at_4)) = [].
Proof.
  assert (H : 0 < currentFrameNumber gap_at_4 <= Int.int_max).
  { vm_compute. split; [reflexivity | discriminate]. }
  pose proof (previousFrame_decrement_committed gap_at_4 H)
    as (N & R & _ & _ & F & _).
  exact (conj N (conj R F)).
Defined.

(** [nextFrame_failure_keeps_position] at frame 2 of [gap.mp4], where the
    read of frame 3 fails. *)
Lemma nextFrame_failure_keeps_position_witness :
  currentFrameNumber (snd (nextFrame gap_at_2)) = 2
  /\ (Int.sub (totalFrames gap_at_2) 1 <= currentFrameNumber gap_at_2
      \/ fst (cap_read (handle (cap gap_at_2)) (currentFrame gap_at_2))
         = false).
Proof.
  exact (nextFrame_failure_keeps_position gap_at_2 eq_refl).
Defined.

(** [seekToFrame_then_getCurrentFrame] on [clip.mp4] with target 6. *)
Lemma seekToFrame_then_getCurrentFrame_witness :
  fst (seekToFrame clip_loaded 6) = true
  /\ getCurrentFrame (snd (seekToFrame clip_loaded 6)) = 6.
Proof.
  assert (H : 0 <= 6 <= totalFrames clip_loaded - 1).
  { vm_compute. split; discriminate. }
  exact (seekToFrame_then_getCurrentFrame clip_loaded 6 H eq_refl).
Defined.

(** [seekToFrame_out_of_range] on [clip.mp4] at frame 5 with the targets
    -1 and [totalFrames]. *)
Lemma seekToFrame_out_of_range_witness :
  (fst (seekToFrame clip_at_5 (-1)) = false
   /\ currentFrameNumber (snd (seekToFrame clip_at_5 (-1))) = 5
   /\ calls (cap (snd (seekToFrame clip_at_5 (-1)))) = calls (cap clip_at_5)
   /\ snd (seekToFrame clip_at_5 (-1)) = clip_at_5)
  /\ (fst (seekToFrame clip_at_5 (totalFrames clip_at_5)) = false
      /\ currentFrameNumber (snd (seekToFrame clip_at_5 (totalFrames clip_at_5)))
         = 5
      /\ calls (cap (snd (seekToFrame clip_at_5 (totalFrames clip_at_5))))
         = calls (cap clip_at_5)
      /\ snd (seekToFrame clip_at_5 (totalFrames clip_at_5)) = clip_at_5).
Proof.
  assert (L : -1 < 0 \/ totalFrames clip_at_5 - 1 < -1) by (left; reflexivity).
  assert (R : totalFrames clip_at_5 < 0
              \/ totalFrames clip_at_5 - 1 < totalFrames clip_at_5)
    by (right; reflexivity).
  exact (conj (seekToFrame_out_of_range clip_at_5 (-1) L)
              (seekToFrame_out_of_range clip_at_5 (totalFrames clip_at_5) R)).
Defined.

(** [jump_to_frame_prompt] on [clip.mp4], key [g], each answer followed
    by a newline. *)
Lemma jump_to_frame_prompt_witness :
  currentFrameNumber
    (loop_player (handle_key 0 103 clip_loaded (typed "7" nl (console "")) false))
  = 6
  /\ loop_player (handle_key 0 103 clip_loaded (typed "11" nl (console "")) false)
     = clip_loaded
  /\ loop_player (handle_key 0 103 clip_loaded (typed "abc" nl (console "")) false)
     = clip_loaded.
Proof.
  pose proof (jump_to_frame_prompt clip_loaded (console "") 0 103 false nl
                (or_introl eq_refl) eq_refl eq_refl) as (H7 & H11 & Habc).
  exact (conj (proj2 (H7 eq_refl)) (conj (proj1 H11) (proj1 Habc))).
Defined.

(** C7 does not hold as stated.  On [gap.mp4] the player holds the image
    of frame 2; [nextFrame] and [seekToFrame] to 3 fail on the frame that
    cannot be decoded, and so does [previousFrame] from frame 4; after
    each failed call the held image is empty. *)
Lemma failed_read_releases_held_frame :
  (currentFrame gap_at_2 = Mem.frame 2
   /\ fst (nextFrame gap_at_2) = false
   /\ currentFrame (snd (nextFrame gap_at_2)) = []
   /\ currentFrame (snd (nextFrame gap_at_2)) <> currentFrame gap_at_2)
  /\ (fst (seekToFrame gap_at_2 3) = false
      /\ currentFrame (snd (seekToFrame gap_at_2 3)) = []
      /\ currentFrame (snd (seekToFrame gap_at_2 3)) <> currentFrame gap_at_2)
  /\ (currentFrame gap_at_4 = Mem.frame 4
      /\ fst (previousFrame gap_at_4) = false
      /\ currentFrame (snd (previousFrame gap_at_4)) = []
      /\ currentFrame (snd (previousFrame gap_at_4)) <> currentFrame gap_at_4).
Proof. vm_compute. repeat split; discriminate. Qed.

(** [held_frame_after_call] on the in-memory videos: a [nextFrame]
    rejected at the last index, one that succeeds and one whose read
    fails. *)
Lemma held_frame_after_call_witness :
  run_op OpNext (snd (seekToFrame clip_loaded 9))
  = (false, snd (seekToFrame clip_loaded 9))
  /\ (fst (run_op OpNext (load Mem.releasing "gap.mp4")) = true
      /\ currentFrame (snd (run_op OpNext (load Mem.releasing "gap.mp4")))
         = Mem.frame 1)
  /\ (fst (run_op OpNext gap_at_2) = false
      /\ currentFrame (snd (run_op OpNext gap_at_2)) = []).
Proof.
  pose proof (proj1 (held_frame_after_call
                       OpNext (snd (seekToFrame clip_loaded 9))) eq_refl) as A.
  pose proof (proj2 (held_frame_after_call
                       OpNext (load Mem.releasing "gap.mp4")) eq_refl)
    as (B1 & B2 & _).
  pose proof (proj2 (held_frame_after_call OpNext gap_at_2) eq_refl)
    as (C1 & C2 & _).
  exact (conj A (conj (conj B1 B2) (conj C1 C2))).
Defined.

(** [ten_frames_nine_advances] on [clip.mp4]. *)
Lemma ten_frames_nine_advances_witness :
  currentFrameNumber clip_loaded = 0
  /\ fst (advance_n 9 clip_loaded) = repeat true 9
  /\ currentFrameNumber (snd (advance_n 9 clip_loaded)) = 9
  /\ fst (nextFrame (snd (advance_n 9 clip_loaded))) = false.
Proof.
  exact (ten_frames_nine_advances newVideoPlayer "clip.mp4"
           eq_refl eq_refl eq_refl).
Defined.

(** [previousFrame_at_start] on [clip.mp4] just loaded. *)
Lemma previousFrame_at_start_witness :
  fst (previousFrame clip_loaded) = false
  /\ currentFrameNumber (snd (previousFrame clip_loaded)) = 0
  /\ calls (cap (snd (previousFrame clip_loaded))) = calls (cap clip_loaded)
  /\ snd (previousFrame clip_loaded) = clip_loaded.
Proof. exact (previousFrame_at_start clip_loaded eq_refl). Defined.

(** [position_stays_in_range] on [gap.mp4] with calls that succeed, calls
    that fail at a bound and calls that fail on the frame that cannot be
    decoded. *)
Lemma position_stays_in_range_witness :
  0 <= currentFrameNumber
         (run_ops [OpPrevious; OpNext; OpSeek 4; OpPrevious; OpNext;
                   OpSeek 42; OpSeek 9; OpNext; OpSeek (-1); OpPrevious]
                  (load Mem.releasing "gap.mp4"))
    <= totalFrames (load Mem.releasing "gap.mp4") - 1
  /\ totalFrames
       (run_ops [OpPrevious; OpNext; OpSeek 4; OpPrevious; OpNext;
                 OpSeek 42; OpSeek 9; OpNext; OpSeek (-1); OpPrevious]
                (load Mem.releasing "gap.mp4"))
     = totalFrames (load Mem.releasing "gap.mp4").
Proof.
  assert (H : 1 <= totalFrames (snd (fst (loadVideo newVideoPlayer "gap.mp4")))).
  { vm_compute. discriminate. }
  exact (position_stays_in_range newVideoPlayer "gap.mp4" _ eq_refl H).
Defined.

End OnReleasingCapture.

(** ** Further runs of the code *)

Section Runs.

#[local] Existing Instance Mem.releasing.

Import Demo.

(** [static_cast<int>] truncates toward zero. *)
Example of_double_values :
  Int.of_double 10 = 10
  /\ Int.of_double 10.5 = 10
  /\ Int.of_double (-10.5) = -10
  /\ Int.of_double 0 = 0
  /\ Int.of_double nan = Int.int_min
  /\ Int.of_double 4294967296 = Int.int_min.
Proof. vm_compute. repeat split. Qed.

Example to_string_values :
  Int.to_string 7 = "7" /\ Int.to_string 0 = "0" /\ Int.to_string (-15) = "-15".
Proof. vm_compute. repeat split. Qed.

(** [std::cin >> int] on a few inputs: leading white space and a sign are
    accepted, a field without digits writes 0, a value that does not fit
    writes the bound, and a stream that has failed no longer writes the
    target at all. *)
Example extract_int_values :
  Cin.extract_int (Cin.mkIstream ("  42" ++ nl) false false) 99
  = (42, Cin.mkIstream nl false false)
  /\ Cin.extract_int (Cin.mkIstream "-3x" false false) 99
     = (-3, Cin.mkIstream "x" false false)
  /\ Cin.extract_int (Cin.mkIstream "7" false false) 99
     = (7, Cin.mkIstream "" false true)
  /\ Cin.extract_int (Cin.mkIstream "+" false false) 99
     = (0, Cin.mkIstream "" true true)
  /\ Cin.extract_int (Cin.mkIstream "99999999999 " false false) 99
     = (Int.int_max, Cin.mkIstream " " true false)
  /\ Cin.extract_int (Cin.mkIstream "" false false) 99
     = (99, Cin.mkIstream "" true true)
  /\ Cin.extract_int (Cin.mkIstream "abc" true false) 99
     = (99, Cin.mkIstream "abc" true false).
Proof. vm_compute. repeat split. Qed.

(** After a rejected "abc" the stream has failed and still holds "abc": the
    next prompt does not write [targetFrame], whose indeterminate content
    then decides; with 4 there, the player jumps to frame 3. *)
Example prompt_after_failed_input :
  let first := handle_key 4 103 clip_loaded (typed "abc" nl (console "")) false in
  let second := handle_key 4 103 (loop_player first) (loop_world first) false in
  loop_player first = clip_loaded
  /\ Cin.failbit (cin (loop_world first)) = true
  /\ currentFrameNumber (loop_player second) = 3.
Proof. vm_compute. repeat split. Qed.

(** Seeking to frame 5 and stepping back holds frame 4 at frame number 4. *)
Example seek_5_then_previous :
  fst (previousFrame clip_at_5) = true
  /\ currentFrameNumber (snd (previousFrame clip_at_5)) = 4
  /\ currentFrame (snd (previousFrame clip_at_5)) = Mem.frame 4.
Proof. vm_compute. repeat split. Qed.

(** Space, then time-outs of [cv::waitKey]: playback runs to the last frame,
    stops there, and [q] leaves the loop. The key Escape (27) is not a case
    of the [switch]: it does not leave the loop. *)
Example playback_to_the_end :
  let r := startPlayback 0 [32; -1; -1; -1; -1; -1; -1; -1; -1; -1; -1; -1; 113]
                         clip_loaded (console "") in
  currentFrameNumber (fst (fst r)) = 9 /\ snd r = true.
Proof. vm_compute. split; reflexivity. Qed.

Example escape_does_not_quit :
  snd (startPlayback 0 [27] clip_loaded (console "")) = false
  /\ snd (startPlayback 0 [113] clip_loaded (console "")) = true
  /\ snd (startPlayback 0 [81] clip_loaded (console "")) = true.
Proof. vm_compute. repeat split. Qed.

(** [main] with a file that is not there exits with -1; with [clip.mp4]
    and the key [q] it exits with 0. *)
Example main_exit_codes :
  fst (main 0 [113] ["player"; "missing.mp4"] (console "")) = Some (-1)
  /\ fst (main 0 [113] ["player"; "clip.mp4"] (console "")) = Some 0
  /\ fst (main 0 [113] ["player"] (console ("clip.mp4" ++ nl))) = Some 0.
Proof. vm_compute. repeat split. Qed.

End Runs.

(* ================================================================== *)
(** * Further properties: the members, the event loop and [main] *)
(* ================================================================== *)

(** Takes [handle_key] apart, one goal per case of the [switch] and per
    outcome of its tests. *)
Ltac each_key :=
  unfold handle_key, end_of_video;
  repeat match goal with
         | |- context [match ?x with _ => _ end] => is_var x; destruct x
         end;
  repeat match goal with
         | |- context [if ?b then _ else _] => destruct b
         end;
  cbn [loop_player loop_world loop_playing loop_quit].

Section EventLoop.
Context {Cap Mat : Type} {VC : VideoCapture Cap Mat}.
Implicit Types p : VideoPlayer Cap Mat.

Lemma handle_key_quit g key p (w : World Mat) pl :
  loop_quit (handle_key g key p w pl) = is_quit_key key.
Proof. each_key; reflexivity. Qed.

Lemma handle_key_player g key p (w : World Mat) pl :
  exists ops, loop_player (handle_key g key p w pl) = run_ops ops p.
Proof.
  each_key;
    first [ now exists []
          | now exists [OpNext]
          | now exists [OpPrevious]
          | match goal with
            | |- context [seekToFrame p ?n] => now exists [OpSeek n]
            end ].
Qed.

Lemma handle_key_cin g key p (w : World Mat) pl :
  is_prompt_key key = false ->
  cin (loop_world (handle_key g key p w pl)) = cin w.
Proof. each_key; intros H; try reflexivity; discriminate H. Qed.

Lemma handle_key_out g key p (w : World Mat) pl :
  exists es, out (loop_world (handle_key g key p w pl)) = (out w ++ es)%list.
Proof.
  each_key; unfold emit; cbn [out];
    rewrite <- ?app_assoc;
    first [ exists []; now rewrite app_nil_r | eexists; reflexivity ].
Qed.

Lemma emit_cin (es : list (Event Mat)) (w : World Mat) : cin (emit es w) = cin w.
Proof. reflexivity. Qed.

Lemma frame_io_cin p (w : World Mat) (playing : bool) :
  cin (emit [WaitKey (if playing then 33 else 0)]
            (printFrameInfo p (displayFrame p w))) = cin w.
Proof.
  unfold printFrameInfo, displayFrame.
  destruct (negb (mat_empty (currentFrame p))); reflexivity.
Qed.

Lemma run_ops_app (a b : list Op) p :
  run_ops (a ++ b) p = run_ops b (run_ops a p).
Proof.
  revert p. induction a as [|o a IH]; intros p; cbn [run_ops app];
    [reflexivity | apply IH].
Qed.

(** Whether the loop was left is decided by the keys alone. *)
Lemma playback_loop_left g (keys : list Z) : forall p (w : World Mat) pl,
  snd (playback_loop g keys p w pl)
  = existsb (fun k => is_quit_key (low_byte k)) keys.
Proof.
  induction keys as [|k keys IH]; intros p w pl; cbn [playback_loop existsb].
  - reflexivity.
  - rewrite handle_key_quit. fold (low_byte k).
    destruct (is_quit_key (low_byte k)); cbn [orb snd]; [reflexivity | apply IH].
Qed.

(** X7: the loop is left at a quit key: the keys that come after it change
    nothing of the result. *)
Theorem keys_after_quit_ignored g (before after : list Z) (k : Z) :
  forall p (w : World Mat) pl,
  is_quit_key (low_byte k) = true ->
  playback_loop g (before ++ k :: after) p w pl
  = playback_loop g (before ++ [k]) p w pl.
Proof.
  induction before as [|b before IH]; intros p w pl Hk; cbn [playback_loop List.app].
  - rewrite handle_key_quit. fold (low_byte k). rewrite Hk. reflexivity.
  - destruct (loop_quit (handle_key g (Z.land b 255) p _ pl));
      [reflexivity | now apply IH].
Qed.

Lemma playback_loop_player g (keys : list Z) : forall p (w : World Mat) pl,
  exists ops, fst (fst (playback_loop g keys p w pl)) = run_ops ops p.
Proof.
  induction keys as [|k keys IH]; intros p w pl; cbn [playback_loop].
  - now exists [].
  - destruct (handle_key_player g (Z.land k 255) p
                (emit [WaitKey (if pl then 33 else 0)]
                      (printFrameInfo p (displayFrame p w))) pl) as [o1 E1].
    destruct (loop_quit _).
    + exists o1. exact E1.
    + destruct (IH (loop_player (handle_key g (Z.land k 255) p
                (emit [WaitKey (if pl then 33 else 0)]
                      (printFrameInfo p (displayFrame p w))) pl))
                   (loop_world (handle_key g (Z.land k 255) p
                (emit [WaitKey (if pl then 33 else 0)]
                      (printFrameInfo p (displayFrame p w))) pl))
                   (loop_playing (handle_key g (Z.land k 255) p
                (emit [WaitKey (if pl then 33 else 0)]
                      (printFrameInfo p (displayFrame p w))) pl))) as [o2 E2].
      exists (o1 ++ o2)%list. rewrite run_ops_app, <- E1. exact E2.
Qed.

(** X9: as long as no key is [g] or [G], the loop does not read
    [std::cin]: the console input is left as it was. *)
Theorem playback_loop_cin g (keys : list Z) : forall p (w : World Mat) pl,
  forallb (fun k => negb (is_prompt_key (low_byte k))) keys = true ->
  cin (snd (fst (playback_loop g keys p w pl))) = cin w.
Proof.
  induction keys as [|k keys IH]; intros p w pl H; cbn [playback_loop].
  - apply frame_io_cin.
  - cbn [forallb] in H. apply andb_true_iff in H as [Hk H].
    apply negb_true_iff in Hk. unfold low_byte in Hk.
    pose proof (handle_key_cin g (Z.land k 255) p
                  (emit [WaitKey (if pl then 33 else 0)]
                        (printFrameInfo p (displayFrame p w))) pl Hk) as C.
    rewrite frame_io_cin in C.
    destruct (loop_quit _); cbn [fst snd]; [exact C|].
    rewrite IH by exact H. exact C.
Qed.

Lemma startPlayback_player g (keys : list Z) p (w : World Mat) :
  exists ops, fst (fst (startPlayback g keys p w)) = run_ops ops p.
Proof.
  unfold startPlayback. destruct (mat_empty (currentFrame p)); [now exists []|].
  match goal with |- context [playback_loop g keys p ?w' false] =>
    destruct (playback_loop_player g keys p w' false) as [ops E];
    destruct (playback_loop g keys p w' false) as [[q w2] r] end.
  exists ops. destruct r; exact E.
Qed.


(** *** Success of the members *)

(** X1: when the file opens and its first frame is read, [loadVideo]
    returns [true] with the frame number 0, the total and the rate of the
    metadata, the image that was read, and exactly two calls made on the
    capture, the [open] and one read; the window name is untouched. *)
Theorem loadVideo_success p (filename : string) :
  cap_isOpened (snd (cap_open (handle (cap p)) filename)) = true ->
  fst (cap_read (snd (cap_open (handle (cap p)) filename)) (currentFrame p))
  = true ->
  fst (fst (loadVideo p filename)) = true
  /\ currentFrameNumber (snd (fst (loadVideo p filename))) = 0
  /\ totalFrames (snd (fst (loadVideo p filename)))
     = Int.of_double (cap_get (snd (cap_open (handle (cap p)) filename))
                              CAP_PROP_FRAME_COUNT)
  /\ fps (snd (fst (loadVideo p filename)))
     = cap_get (snd (cap_open (handle (cap p)) filename)) CAP_PROP_FPS
  /\ currentFrame (snd (fst (loadVideo p filename)))
     = snd (snd (cap_read (snd (cap_open (handle (cap p)) filename))
                          (currentFrame p)))
  /\ calls (cap (snd (fst (loadVideo p filename))))
     = (calls (cap p) ++ [CallOpen filename; CallRead])%list
  /\ windowName (snd (fst (loadVideo p filename))) = windowName p.
Proof.
  intros Ho Hr. unfold loadVideo. members. rewrite Ho, Hr. members.
  rewrite <- app_assoc. repeat split.
Qed.

(** X2: below the last index and with a successful read, [nextFrame]
    returns [true], adds one to the frame number, holds the image read, and
    makes one call on the capture, the sequential read (no seek). *)
Theorem nextFrame_success p :
  Int.in_range (totalFrames p) ->
  0 <= currentFrameNumber p < totalFrames p - 1 ->
  fst (cap_read (handle (cap p)) (currentFrame p)) = true ->
  fst (nextFrame p) = true
  /\ currentFrameNumber (snd (nextFrame p)) = currentFrameNumber p + 1
  /\ currentFrame (snd (nextFrame p))
     = snd (snd (cap_read (handle (cap p)) (currentFrame p)))
  /\ calls (cap (snd (nextFrame p))) = (calls (cap p) ++ [CallRead])%list.
Proof.
  intros Ht Hc Hr.
  assert (Hsub : Int.sub (totalFrames p) 1 = totalFrames p - 1).
  { apply sub_exact. unfold Int.in_range, Int.int_min, Int.int_max in *. lia. }
  assert (Hadd : Int.add (currentFrameNumber p) 1 = currentFrameNumber p + 1).
  { apply add_exact. unfold Int.in_range, Int.int_min, Int.int_max in *. lia. }
  assert (G : (currentFrameNumber p >=? totalFrames p - 1) = false) by lia.
  unfold nextFrame. rewrite Hsub, G, read_currentFrame_result, Hr.
  members. rewrite Hadd. repeat split.
Qed.

(** X3: from a frame number [n > 0], when the read after the seek to
    [n - 1] succeeds, [previousFrame] returns [true] with the frame number
    [n - 1], the image read, and two calls on the capture: the seek to
    [n - 1], then the read. *)
Theorem previousFrame_success p :
  0 < currentFrameNumber p <= Int.int_max ->
  fst (cap_read
         (snd (cap_set (handle (cap p)) CAP_PROP_POS_FRAMES
                       (Int.to_double (currentFrameNumber p - 1))))
         (currentFrame p)) = true ->
  fst (previousFrame p) = true
  /\ currentFrameNumber (snd (previousFrame p)) = currentFrameNumber p - 1
  /\ currentFrame (snd (previousFrame p))
     = snd (snd (cap_read
                   (snd (cap_set (handle (cap p)) CAP_PROP_POS_FRAMES
                                 (Int.to_double (currentFrameNumber p - 1))))
                   (currentFrame p)))
  /\ calls (cap (snd (previousFrame p)))
     = (calls (cap p)
        ++ [CallSet CAP_PROP_POS_FRAMES
                    (Int.to_double (currentFrameNumber p - 1));
            CallRead])%list.
Proof.
  intros Hc Hr.
  assert (E : (currentFrameNumber p <=? 0) = false) by lia.
  assert (S : Int.sub (currentFrameNumber p) 1 = currentFrameNumber p - 1).
  { apply sub_exact. unfold Int.in_range, Int.int_min, Int.int_max in *. lia. }
  unfold previousFrame. rewrite E, read_currentFrame_result.
  members. rewrite S, Hr. members. rewrite <- app_assoc. repeat split.
Qed.


(** *** Invariants of playback *)

Lemma run_op_other_members (o : Op) p :
  fps (snd (run_op o p)) = fps p
  /\ windowName (snd (run_op o p)) = windowName p.
Proof.
  destruct o as [| |n]; cbn [run_op];
    [unfold nextFrame | unfold previousFrame | unfold seekToFrame];
    repeat match goal with |- context [if ?b then _ else _] => destruct b end;
    split; reflexivity.
Qed.

Lemma run_ops_other_members (ops : list Op) : forall p,
  fps (run_ops ops p) = fps p /\ windowName (run_ops ops p) = windowName p.
Proof.
  induction ops as [|o ops IH]; intros p; cbn [run_ops]; [auto|].
  destruct (IH (snd (run_op o p))) as [F W].
  destruct (run_op_other_members o p) as [F' W'].
  rewrite F, W. auto.
Qed.

(** X4: [startPlayback] started with a frame number in
    [0, totalFrames - 1] ends (or waits) with a frame number in that range,
    whatever keys arrive, whatever is typed at the prompt and whatever the
    reads return; it never changes [totalFrames], [fps] or [windowName]. *)
Theorem startPlayback_keeps_position g (keys : list Z) p (w : World Mat) :
  Int.in_range (totalFrames p) ->
  0 <= currentFrameNumber p <= totalFrames p - 1 ->
  0 <= currentFrameNumber (fst (fst (startPlayback g keys p w)))
    <= totalFrames p - 1
  /\ totalFrames (fst (fst (startPlayback g keys p w))) = totalFrames p
  /\ fps (fst (fst (startPlayback g keys p w))) = fps p
  /\ windowName (fst (fst (startPlayback g keys p w))) = windowName p.
Proof.
  intros Ht Hc. destruct (startPlayback_player g keys p w) as [ops E].
  rewrite E.
  destruct (run_ops_keep_position ops p Ht Hc) as [K T].
  destruct (run_ops_other_members ops p) as [F W]. auto.
Qed.

Lemma run_op_calls (o : Op) p :
  Int.in_range (totalFrames p) ->
  0 <= currentFrameNumber p <= totalFrames p - 1 ->
  exists l, calls (cap (snd (run_op o p))) = (calls (cap p) ++ l)%list
            /\ Forall (nav_call (totalFrames p)) l.
Proof.
  intros Ht Hc. destruct o as [| |n]; cbn [run_op].
  - unfold nextFrame.
    destruct (currentFrameNumber p >=? Int.sub (totalFrames p) 1).
    + exists []. now rewrite app_nil_r.
    + exists [CallRead].
      destruct (fst (read_currentFrame p)); members;
        (split; [reflexivity | repeat constructor]).
  - unfold previousFrame.
    destruct (Z.leb_spec (currentFrameNumber p) 0) as [G|G].
    + exists []. now rewrite app_nil_r.
    + exists [CallSet CAP_PROP_POS_FRAMES
                      (Int.to_double (Int.sub (currentFrameNumber p) 1));
              CallRead].
      split.
      * destruct (fst (read_currentFrame _)); members;
          now rewrite <- app_assoc.
      * repeat constructor.
        exists (currentFrameNumber p - 1). split; [lia|].
        rewrite sub_exact; [reflexivity|].
        unfold Int.in_range, Int.int_min, Int.int_max in *. lia.
  - unfold seekToFrame.
    destruct (Z.ltb_spec n 0) as [G|G];
      [exists []; now rewrite app_nil_r|].
    destruct (Z.geb_spec n (totalFrames p)) as [G'|G'];
      [exists []; now rewrite app_nil_r|].
    cbn [orb].
    exists [CallSet CAP_PROP_POS_FRAMES (Int.to_double n); CallRead].
    split.
    + destruct (fst (read_currentFrame _)); members; now rewrite <- app_assoc.
    + repeat constructor. exists n. split; [lia | reflexivity].
Qed.

Lemma run_ops_calls (ops : list Op) : forall p,
  Int.in_range (totalFrames p) ->
  0 <= currentFrameNumber p <= totalFrames p - 1 ->
  exists l, calls (cap (run_ops ops p)) = (calls (cap p) ++ l)%list
            /\ Forall (nav_call (totalFrames p)) l.
Proof.
  induction ops as [|o ops IH]; intros p Ht Hc; cbn [run_ops].
  - exists []. split; [now rewrite app_nil_r | constructor].
  - destruct (run_op_calls o p Ht Hc) as (l1 & E1 & F1).
    pose proof (run_op_totalFrames o p) as T.
    pose proof (run_op_keeps_position o p Ht Hc) as K.
    rewrite <- T in K, Ht.
    destruct (IH _ Ht K) as (l2 & E2 & F2). rewrite T in F2.
    exists (l1 ++ l2)%list. split.
    + rewrite E2, E1. now rewrite app_assoc.
    + apply Forall_app. auto.
Qed.

(** X5: under the same condition, every call [startPlayback] makes on
    the capture is a read or a seek to an index in [0, totalFrames - 1]:
    the file is never opened again and the decoder is never sent out of
    the video. *)
Theorem startPlayback_calls g (keys : list Z) p (w : World Mat) :
  Int.in_range (totalFrames p) ->
  0 <= currentFrameNumber p <= totalFrames p - 1 ->
  exists l,
    calls (cap (fst (fst (startPlayback g keys p w))))
    = (calls (cap p) ++ l)%list
    /\ Forall (nav_call (totalFrames p)) l.
Proof.
  intros Ht Hc. destruct (startPlayback_player g keys p w) as [ops E].
  rewrite E. now apply run_ops_calls.
Qed.

(** *** Leaving the loop *)

(** X6: [startPlayback] returns exactly when no image is held or one of
    the keys has the low byte of [q] or [Q]; otherwise it is still waiting
    in [cv::waitKey].  In particular Escape (27) does not leave the loop. *)
Theorem startPlayback_returned g (keys : list Z) p (w : World Mat) :
  snd (startPlayback g keys p w)
  = mat_empty (currentFrame p)
    || existsb (fun k => is_quit_key (low_byte k)) keys.
Proof.
  unfold startPlayback. destruct (mat_empty (currentFrame p)); [reflexivity|].
  match goal with |- context [playback_loop g keys p ?w' false] =>
    pose proof (playback_loop_left g keys p w' false) as L;
    destruct (playback_loop g keys p w' false) as [[q w2] r] end.
  cbn [snd] in L. rewrite <- L. now destruct r.
Qed.

Lemma land_255_twice (k : Z) : Z.land (Z.land k 255) 255 = Z.land k 255.
Proof. rewrite <- Z.land_assoc. reflexivity. Qed.

(** X8: the loop looks at the low byte of each result of [cv::waitKey]
    only: replacing every result by its low byte gives the same run. *)
Theorem playback_loop_low_bytes g (keys : list Z) :
  forall p (w : World Mat) pl,
  playback_loop g (map low_byte keys) p w pl = playback_loop g keys p w pl.
Proof.
  induction keys as [|k keys IH]; intros p w pl; cbn [playback_loop map].
  - reflexivity.
  - change (low_byte k) with (Z.land k 255). rewrite land_255_twice.
    destruct (loop_quit _); [reflexivity | apply IH].
Qed.

(** X10: the space key inverts the play state and nothing else of the
    loop; pressed twice it gives back the play state, with the player and
    the console input unchanged and the loop not left. *)
Theorem toggle_twice g p (w : World Mat) (pl : bool) :
  let once := handle_key g 32 p w pl in
  let twice := handle_key g 32 (loop_player once) (loop_world once)
                          (loop_playing once) in
  loop_playing once = negb pl
  /\ loop_player twice = p
  /\ loop_playing twice = pl
  /\ loop_quit twice = false
  /\ cin (loop_world twice) = cin w.
Proof.
  cbv zeta. unfold handle_key. cbn [loop_player loop_playing loop_quit loop_world].
  rewrite negb_involutive. repeat split.
Qed.

(** *** The exit code of [main] *)

Lemma main_exit_eq g (keys : list Z) (argv : list string) (w : World Mat) :
  fst (main g keys argv w)
  = if fst (fst (loadVideo newVideoPlayer (video_file argv w)))
    then if mat_empty
              (currentFrame
                 (snd (fst (loadVideo newVideoPlayer (video_file argv w)))))
            || existsb (fun k => is_quit_key (low_byte k)) keys
         then Some 0 else None
    else Some (-1).
Proof.
  unfold main, video_file.
  destruct argv as [|a0 [|a1 more]]; cbn [cin emit]; cbv beta iota zeta;
    (destruct (loadVideo newVideoPlayer _) as [[ok q] printed];
     cbn [fst snd]; destruct ok; [|reflexivity];
     unfold startPlayback;
     destruct (mat_empty (currentFrame q)); [reflexivity|]; cbn [orb];
     match goal with |- context [playback_loop g keys q ?w' false] =>
       pose proof (playback_loop_left g keys q w' false) as L;
       destruct (playback_loop g keys q w' false) as [[q' w2] r] end;
     cbn [snd] in L; rewrite <- L; now destruct r).
Qed.


(** X11: [main] exits with -1 exactly when [loadVideo] fails on the chosen
    file; it exits with 0 exactly when the load succeeded and
    [startPlayback] returned (no image held, or a quit key among the keys);
    otherwise it has not exited. *)
Theorem main_exit_code g (keys : list Z) (argv : list string) (w : World Mat) :
  (fst (main g keys argv w) = Some (-1)
   <-> fst (fst (loadVideo newVideoPlayer (video_file argv w))) = false)
  /\ (fst (main g keys argv w) = Some 0
      <-> fst (fst (loadVideo newVideoPlayer (video_file argv w))) = true
          /\ mat_empty
               (currentFrame
                  (snd (fst (loadVideo newVideoPlayer (video_file argv w)))))
             || existsb (fun k => is_quit_key (low_byte k)) keys = true)
  /\ (fst (main g keys argv w) = None
      <-> fst (fst (loadVideo newVideoPlayer (video_file argv w))) = true
          /\ mat_empty
               (currentFrame
                  (snd (fst (loadVideo newVideoPlayer (video_file argv w)))))
             || existsb (fun k => is_quit_key (low_byte k)) keys = false).
Proof.
  rewrite main_exit_eq.
  destruct (fst (fst (loadVideo newVideoPlayer (video_file argv w))));
    [destruct (_ || _)|]; intuition congruence.
Qed.

Lemma split_line_one_line (line rest : string) :
  one_line line = true ->
  Cin.split_line (line ++ nl ++ rest) = (line, Some rest).
Proof.
  induction line as [|c line IH]; cbn [one_line append Cin.split_line].
  - reflexivity.
  - intros H. apply andb_true_iff in H as [Hc Hl].
    apply negb_true_iff in Hc. rewrite Hc, (IH Hl). reflexivity.
Qed.

(** X12: without a file argument [main] loads the file named by the next
    line of the console: it exits as it does when that name is [argv[1]]. *)
Theorem main_prompt_is_argument g (keys : list Z) (argv more : list string)
    (prog line rest : string) (w w' : World Mat) :
  (List.length argv < 2)%nat ->
  one_line line = true ->
  cin w = Cin.mkIstream (line ++ nl ++ rest) false false ->
  fst (main g keys argv w) = fst (main g keys (prog :: line :: more) w').
Proof.
  intros Hargv Hline Hcin. rewrite !main_exit_eq.
  assert (E : video_file argv w = line).
  { unfold video_file, Cin.getline. rewrite Hcin. cbn [Cin.good Cin.failbit Cin.eofbit negb andb Cin.ibuf].
    rewrite (split_line_one_line line rest Hline).
    destruct argv as [|a0 [|a1 tl]]; [reflexivity | reflexivity |].
    cbn [List.length] in Hargv. lia. }
  rewrite E. reflexivity.
Qed.

(** *** The prompt, for every number *)

Lemma of_uint_acc_horner (d : Decimal.uint) : forall acc : positive,
  Z.pos (Pos.of_uint_acc d acc) = horner d (Z.pos acc).
Proof.
  induction d; intros acc; cbn [Pos.of_uint_acc horner];
    [reflexivity | rewrite IHd; f_equal; lia ..].
Qed.

Lemma of_uint_horner (d : Decimal.uint) : Z.of_N (Pos.of_uint d) = horner d 0.
Proof.
  induction d; cbn [Pos.of_uint horner];
    [reflexivity | exact IHd | cbn [Z.of_N]; apply of_uint_acc_horner ..].
Qed.

Lemma read_digits_uint (d : Decimal.uint) (rest : string) :
  Cin.field_ends rest = true ->
  forall acc seen,
  Cin.read_digits (NilEmpty.string_of_uint d ++ rest) acc seen
  = (horner d acc,
     seen || match d with Decimal.Nil => false | _ => true end, rest).
Proof.
  intros Hrest.
  induction d; intros acc seen; cbn [NilEmpty.string_of_uint append horner];
    [ rewrite (read_digits_end rest acc seen Hrest), orb_false_r; reflexivity
    | match goal with
      | |- Cin.read_digits (String ?c ?s) _ _ = (horner _ ?a, _, _) =>
          change (Cin.read_digits (String c s) acc seen)
            with (Cin.read_digits s a true)
      end;
      rewrite IHd, orb_true_r; reflexivity .. ].
Qed.

Lemma horner_to_uint (q : positive) : horner (Pos.to_uint q) 0 = Z.pos q.
Proof.
  rewrite <- of_uint_horner, DecimalPos.Unsigned.of_to. reflexivity.
Qed.

(** [std::cin >> int] reads back what [std::to_string] wrote. *)
Lemma extract_int_to_string (z : Z) (rest : string) (old : Z) :
  Int.in_range z ->
  Cin.field_ends rest = true ->
  Cin.extract_int (Cin.mkIstream (Int.to_string z ++ rest) false false) old
  = (z, Cin.mkIstream rest false (Cin.at_eof rest)).
Proof.
  intros Hz Hrest. unfold Int.to_string.
  destruct z as [|q|q]; cbn [Z.to_int NilZero.string_of_int].
  - unfold Cin.extract_int.
    change (Cin.good _) with true. cbn [negb Cin.ibuf].
    change (Cin.skip_ws (NilZero.string_of_uint Decimal.zero ++ rest))
      with (String "0" rest).
    cbv beta iota zeta.
    change (Ascii.eqb "0" "-") with false. change (Ascii.eqb "0" "+") with false.
    cbn [orb].
    change (Cin.read_digits (String "0" rest) 0 false)
      with (Cin.read_digits rest 0 true).
    rewrite (read_digits_end rest 0 true Hrest). reflexivity.
  - pose proof (horner_to_uint q) as V.
    pose proof (read_digits_uint (Pos.to_uint q) rest Hrest 0 false) as R.
    pose proof (DecimalPos.Unsigned.to_uint_nonnil q) as N.
    unfold Cin.extract_int.
    change (Cin.good _) with true. cbn [negb Cin.ibuf].
    destruct (Pos.to_uint q) as [|d|d|d|d|d|d|d|d|d|d]; [congruence | ..];
      cbn [NilZero.string_of_uint NilEmpty.string_of_uint append] in R |- *;
      (match goal with
       | |- context [Cin.skip_ws (String ?c ?s)] =>
           change (Cin.skip_ws (String c s)) with (String c s);
           cbv beta iota zeta;
           change (Ascii.eqb c "-") with false;
           change (Ascii.eqb c "+") with false
       end;
       cbn [orb]; rewrite R, V; cbn [orb];
       unfold Int.in_range in Hz;
       destruct (Z.ltb_spec (Z.pos q) Int.int_min); [lia|];
       destruct (Z.ltb_spec Int.int_max (Z.pos q)); [lia|]; reflexivity).
  - pose proof (horner_to_uint q) as V.
    pose proof (read_digits_uint (Pos.to_uint q) rest Hrest 0 false) as R.
    pose proof (DecimalPos.Unsigned.to_uint_nonnil q) as N.
    unfold Cin.extract_int.
    change (Cin.good _) with true. cbn [negb Cin.ibuf append].
    change (Cin.skip_ws (String "-" ?s)) with (String "-" s).
    cbv beta iota zeta.
    change (Ascii.eqb "-" "-") with true. cbn [orb].
    destruct (Pos.to_uint q) as [|d|d|d|d|d|d|d|d|d|d]; [congruence | ..];
      cbn [NilZero.string_of_uint NilEmpty.string_of_uint append] in R |- *;
      (rewrite R, V; cbn [orb];
       change (- Z.pos q) with (Z.neg q);
       unfold Int.in_range in Hz;
       destruct (Z.ltb_spec (Z.neg q) Int.int_min); [lia|];
       destruct (Z.ltb_spec Int.int_max (Z.neg q)); [lia|]; reflexivity).
Qed.


(** X13: at the prompt, typing the decimal digits of any [int n]: when
    [1 <= n <= totalFrames] the player is the one [seekToFrame (n - 1)]
    leaves and "Jumped to frame n" is printed (whether or not the seek
    succeeded); otherwise the player is unchanged and
    "Invalid frame number!" is printed.  The digits are consumed, the play
    state is kept and the loop is not left. *)
Theorem jump_prompt_any_number p (w : World Mat) (g key n : Z) (pl : bool)
    (rest : string) :
  key = 103 \/ key = 71 ->
  Int.in_range n ->
  Cin.field_ends rest = true ->
  (1 <= n <= totalFrames p ->
   loop_player (handle_key g key p (typed (Int.to_string n) rest w) pl)
   = snd (seekToFrame p (n - 1))
   /\ out (loop_world
             (handle_key g key p (typed (Int.to_string n) rest w) pl))
      = (out w
         ++ [Cout (Str (nl ++ "Enter frame number (1-"));
             Cout (Num (totalFrames p)); Cout (Str "): ");
             Cout (Str "Jumped to frame "); Cout (Num n); Cout Endl])%list)
  /\ (n < 1 \/ totalFrames p < n ->
      loop_player (handle_key g key p (typed (Int.to_string n) rest w) pl) = p
      /\ out (loop_world
                (handle_key g key p (typed (Int.to_string n) rest w) pl))
         = (out w
            ++ [Cout (Str (nl ++ "Enter frame number (1-"));
                Cout (Num (totalFrames p)); Cout (Str "): ");
                Cout (Str "Invalid frame number!"); Cout Endl])%list)
  /\ cin (loop_world (handle_key g key p (typed (Int.to_string n) rest w) pl))
     = Cin.mkIstream rest false (Cin.at_eof rest)
  /\ loop_playing (handle_key g key p (typed (Int.to_string n) rest w) pl) = pl
  /\ loop_quit (handle_key g key p (typed (Int.to_string n) rest w) pl) = false.
Proof.
  intros Hkey Hn Hrest.
  assert (Hg : handle_key g key p (typed (Int.to_string n) rest w) pl
               = handle_key g 103 p (typed (Int.to_string n) rest w) pl).
  { destruct Hkey; subst key; reflexivity. }
  rewrite Hg. unfold handle_key, typed, emit. cbn [cin out fst snd].
  rewrite (extract_int_to_string n rest g Hn Hrest). cbn [fst snd].
  destruct (Z.geb_spec n 1) as [G1|G1];
    [destruct (Z.leb_spec n (totalFrames p)) as [G2|G2]|];
    cbn [andb loop_player loop_world loop_playing loop_quit out cin].
  - rewrite sub_exact
      by (unfold Int.in_range, Int.int_min, Int.int_max in *; lia).
    repeat split; try (intros; lia). now rewrite <- app_assoc.
  - repeat split; try (intros; lia). now rewrite <- app_assoc.
  - repeat split; try (intros; lia). now rewrite <- app_assoc.
Qed.

(** *** Playing to the end *)

Lemma timeout_playing g p (w : World Mat) :
  handle_key g (Z.land (-1) 255) p w true = end_of_video (nextFrame p) w true.
Proof. reflexivity. Qed.

Lemma timeout_paused g p (w : World Mat) :
  handle_key g (Z.land (-1) 255) p w false = mkLoop p w false false.
Proof. reflexivity. Qed.

Lemma timeouts_advance g (k : nat) (rest : list Z) :
  forall p (w : World Mat),
  fst (advance_n k p) = repeat true k ->
  exists w',
    playback_loop g (repeat (-1) k ++ rest) p w true
    = playback_loop g rest (snd (advance_n k p)) w' true.
Proof.
  induction k as [|k IH]; intros p w H.
  - exists w. reflexivity.
  - cbn [advance_n fst repeat] in H. injection H as H1 H2.
    cbn [repeat List.app playback_loop advance_n snd].
    rewrite timeout_playing. unfold end_of_video. rewrite H1.
    cbn [negb loop_quit loop_player loop_world loop_playing].
    apply IH. exact H2.
Qed.

Lemma timeouts_at_end g (j : nat) :
  forall p (w : World Mat) (pl : bool),
  nextFrame p = (false, p) ->
  fst (fst (playback_loop g (repeat (-1) j ++ [113]) p w pl)) = p
  /\ snd (playback_loop g (repeat (-1) j ++ [113]) p w pl) = true.
Proof.
  induction j as [|j IH]; intros p w pl H.
  - cbn [repeat List.app playback_loop]. split; reflexivity.
  - cbn [repeat List.app playback_loop].
    destruct pl.
    + rewrite timeout_playing, H. unfold end_of_video.
      cbn [fst snd negb loop_quit loop_player loop_world loop_playing].
      now apply IH.
    + rewrite timeout_paused.
      cbn [loop_quit loop_player loop_world loop_playing].
      now apply IH.
Qed.

(** X14: space, then enough time-outs of [cv::waitKey], then [q]: when the
    reads up to the last frame succeed, playback ends at frame number
    [totalFrames - 1] (it does not run past it) and [startPlayback]
    returns. *)
Theorem playback_runs_to_last_frame g (n : nat) p (w : World Mat) :
  mat_empty (currentFrame p) = false ->
  Int.in_range (totalFrames p) ->
  0 <= currentFrameNumber p <= totalFrames p - 1 ->
  reads_succeed (Z.to_nat (totalFrames p - 1 - currentFrameNumber p))
                (handle (cap p)) (currentFrame p) = true ->
  (Z.to_nat (totalFrames p - 1 - currentFrameNumber p) <= n)%nat ->
  currentFrameNumber
    (fst (fst (startPlayback g (32 :: repeat (-1) n ++ [113]) p w)))
  = totalFrames p - 1
  /\ snd (startPlayback g (32 :: repeat (-1) n ++ [113]) p w) = true.
Proof.
  intros Hne Ht Hc Hr Hn.
  remember (Z.to_nat (totalFrames p - 1 - currentFrameNumber p)) as m eqn:Em.
  destruct (advance_n_succeeds m p Ht) as (A1 & A2 & A3);
    [lia | lia | exact Hr |].
  assert (Hend : nextFrame (snd (advance_n m p)) = (false, snd (advance_n m p))).
  { unfold nextFrame. rewrite A2, A3.
    rewrite sub_exact
      by (unfold Int.in_range, Int.int_min, Int.int_max in *; lia).
    assert (G : (currentFrameNumber p + Z.of_nat m >=? totalFrames p - 1) = true)
      by lia.
    now rewrite G. }
  replace n with (m + (n - m))%nat by lia.
  rewrite repeat_app, <- app_assoc.
  unfold startPlayback. rewrite Hne.
  cbn [playback_loop].
  change (handle_key g (Z.land 32 255) p ?w' false)
    with (mkLoop p (emit [Cout (Str nl); Cout (Str "▶ Playing"); Cout Endl] w')
                 true false).
  cbn [loop_quit loop_player loop_world loop_playing].
  match goal with |- context [playback_loop g _ p ?w1 true] =>
    destruct (timeouts_advance g m (repeat (-1) (n - m) ++ [113]) p w1 A1)
      as [w2 E]
  end.
  rewrite E.
  destruct (timeouts_at_end g (n - m) (snd (advance_n m p)) w2 true Hend)
    as [F S].
  destruct (playback_loop g (repeat (-1) (n - m) ++ [113])
              (snd (advance_n m p)) w2 true) as [[q w3] r].
  cbn [fst snd] in F, S. subst q r. cbn [fst snd].
  split; [|reflexivity]. rewrite A2. lia.
Qed.


(** *** What is shown while waiting *)

Lemma frame_io_out p (w : World Mat) (d : Z) :
  out (emit [WaitKey d] (printFrameInfo p (displayFrame p w)))
  = (out w ++ frame_report p ++ [WaitKey d])%list.
Proof.
  unfold frame_report, printFrameInfo, displayFrame, emit.
  destruct (negb (mat_empty (currentFrame p))); cbn [out List.app];
    rewrite <- ?app_assoc; reflexivity.
Qed.

Lemma frame_report_events p :
  frame_report p
  = ((if mat_empty (currentFrame p) then []
      else [ImShow (windowName p) (currentFrame p)
              ("Frame: " ++ Int.to_string (Int.add (currentFrameNumber p) 1)
               ++ "/" ++ Int.to_string (totalFrames p))%string])
     ++ [Cout (Str (cr ++ "Frame: "));
         Cout (Num (Int.add (currentFrameNumber p) 1)); Cout (Str "/");
         Cout (Num (totalFrames p)); Cout (Str " (");
         Cout (DblFixed1
                 (Int.to_double (Int.add (currentFrameNumber p) 1)
                  / Int.to_double (totalFrames p) * 100)%float);
         Cout (Str "%)"); Cout Flush])%list.
Proof.
  unfold frame_report, printFrameInfo, displayFrame, emit.
  destruct (mat_empty (currentFrame p)); reflexivity.
Qed.

(** X15: whenever the loop waits for a key, the last events are, for the
    player [q] as it is then: one [cv::imshow] of the held image under the
    overlay "Frame: <frame number + 1>/<total>" when an image is held and
    none when the held image is empty; the status line with the same two
    numbers; and the [cv::waitKey] call, with a delay of 0 or 33. *)
Theorem waiting_report g (keys : list Z) :
  forall p (w : World Mat) (pl : bool),
  existsb (fun k => is_quit_key (low_byte k)) keys = false ->
  let q := fst (fst (playback_loop g keys p w pl)) in
  exists pre d,
    out (snd (fst (playback_loop g keys p w pl)))
    = (pre
       ++ (if mat_empty (currentFrame q) then []
           else [ImShow (windowName q) (currentFrame q)
                   ("Frame: "
                    ++ Int.to_string (Int.add (currentFrameNumber q) 1)
                    ++ "/" ++ Int.to_string (totalFrames q))%string])
       ++ [Cout (Str (cr ++ "Frame: "));
           Cout (Num (Int.add (currentFrameNumber q) 1)); Cout (Str "/");
           Cout (Num (totalFrames q)); Cout (Str " (");
           Cout (DblFixed1
                   (Int.to_double (Int.add (currentFrameNumber q) 1)
                    / Int.to_double (totalFrames q) * 100)%float);
           Cout (Str "%)"); Cout Flush]
       ++ [WaitKey d])%list
    /\ (d = 0 \/ d = 33).
Proof.
  induction keys as [|k keys IH]; intros p w pl H; cbn [playback_loop].
  - cbv zeta. exists (out w), (if pl then 33 else 0). cbn [fst snd].
    split; [|destruct pl; auto].
    rewrite frame_io_out, frame_report_events, <- app_assoc. reflexivity.
  - cbn [existsb] in H. apply orb_false_iff in H as [Hk H].
    rewrite handle_key_quit. fold (low_byte k). rewrite Hk.
    now apply IH.
Qed.

End EventLoop.

(** ** The further properties on the in-memory videos *)

Section FurtherRuns.

#[local] Existing Instance Mem.releasing.

Import Demo.

Lemma clip_total_in_range : Int.in_range (totalFrames clip_loaded).
Proof. vm_compute. split; discriminate. Defined.

Lemma clip_loaded_position :
  0 <= currentFrameNumber clip_loaded <= totalFrames clip_loaded - 1.
Proof. vm_compute. split; discriminate. Defined.

Lemma loadVideo_success_witness :
  fst (fst (loadVideo newVideoPlayer "clip.mp4")) = true
  /\ currentFrameNumber clip_loaded = 0
  /\ totalFrames clip_loaded = 10
  /\ fps clip_loaded = 25%float
  /\ currentFrame clip_loaded = Mem.frame 0
  /\ calls (cap clip_loaded) = [CallOpen "clip.mp4"; CallRead]
  /\ windowName clip_loaded = "Simple Video Player".
Proof. exact (loadVideo_success newVideoPlayer "clip.mp4" eq_refl eq_refl). Defined.

Lemma nextFrame_success_witness :
  fst (nextFrame clip_loaded) = true
  /\ currentFrameNumber (snd (nextFrame clip_loaded)) = 1
  /\ currentFrame (snd (nextFrame clip_loaded)) = Mem.frame 1
  /\ calls (cap (snd (nextFrame clip_loaded)))
     = [CallOpen "clip.mp4"; CallRead; CallRead].
Proof.
  assert (H : 0 <= currentFrameNumber clip_loaded < totalFrames clip_loaded - 1).
  { vm_compute. split; [discriminate | reflexivity]. }
  exact (nextFrame_success clip_loaded clip_total_in_range H eq_refl).
Defined.

Lemma previousFrame_success_witness :
  fst (previousFrame clip_at_5) = true
  /\ currentFrameNumber (snd (previousFrame clip_at_5)) = 4
  /\ currentFrame (snd (previousFrame clip_at_5)) = Mem.frame 4
  /\ calls (cap (snd (previousFrame clip_at_5)))
     = [CallOpen "clip.mp4"; CallRead;
        CallSet CAP_PROP_POS_FRAMES 5; CallRead;
        CallSet CAP_PROP_POS_FRAMES 4; CallRead].
Proof.
  assert (H : 0 < currentFrameNumber clip_at_5 <= Int.int_max).
  { vm_compute. split; [reflexivity | discriminate]. }
  exact (previousFrame_success clip_at_5 H eq_refl).
Defined.

(** Keys of every kind, a time-out, Escape and a left arrow as GTK reports
    it (65361, whose low byte is the one of [Q]), with "7" typed at the
    prompt. *)
Lemma startPlayback_keeps_position_witness :
  0 <= currentFrameNumber
         (fst (fst (startPlayback 0
                      [100; 100; 97; 101; 100; 103; 104; 97; 32; -1; 27; 65361]
                      clip_loaded (console ("7" ++ nl)))))
    <= totalFrames clip_loaded - 1
  /\ totalFrames
       (fst (fst (startPlayback 0
                    [100; 100; 97; 101; 100; 103; 104; 97; 32; -1; 27; 65361]
                    clip_loaded (console ("7" ++ nl)))))
     = totalFrames clip_loaded
  /\ fps (fst (fst (startPlayback 0
                      [100; 100; 97; 101; 100; 103; 104; 97; 32; -1; 27; 65361]
                      clip_loaded (console ("7" ++ nl)))))
     = fps clip_loaded
  /\ windowName
       (fst (fst (startPlayback 0
                    [100; 100; 97; 101; 100; 103; 104; 97; 32; -1; 27; 65361]
                    clip_loaded (console ("7" ++ nl)))))
     = windowName clip_loaded.
Proof.
  exact (startPlayback_keeps_position 0
           [100; 100; 97; 101; 100; 103; 104; 97; 32; -1; 27; 65361]
           clip_loaded (console ("7" ++ nl))
           clip_total_in_range clip_loaded_position).
Defined.

Lemma startPlayback_calls_witness :
  exists l,
    calls (cap (fst (fst (startPlayback 0 [100; 97; 101; 103; 104]
                            clip_loaded (console ("7" ++ nl))))))
    = (calls (cap clip_loaded) ++ l)%list
    /\ Forall (nav_call (totalFrames clip_loaded)) l.
Proof.
  exact (startPlayback_calls 0 [100; 97; 101; 103; 104]
           clip_loaded (console ("7" ++ nl))
           clip_total_in_range clip_loaded_position).
Defined.

Lemma keys_after_quit_ignored_witness :
  playback_loop 0 ([100] ++ 113 :: [100; 100]) clip_loaded (console "") false
  = playback_loop 0 ([100] ++ [113]) clip_loaded (console "") false.
Proof.
  exact (keys_after_quit_ignored 0 [100] [100; 100] 113
           clip_loaded (console "") false eq_refl).
Defined.

Lemma playback_loop_cin_witness :
  cin (snd (fst (playback_loop 0 [100; 32; -1; 97; 101]
                   clip_loaded (console ("7" ++ nl)) false)))
  = cin (console ("7" ++ nl)).
Proof.
  exact (playback_loop_cin 0 [100; 32; -1; 97; 101]
           clip_loaded (console ("7" ++ nl)) false eq_refl).
Defined.

Lemma main_prompt_is_argument_witness :
  fst (main 0 [113] ["player"] (console ("clip.mp4" ++ nl)))
  = fst (main 0 [113] ("player" :: "clip.mp4" :: []) (console "")).
Proof.
  assert (L : (List.length ["player"] < 2)%nat).
  { vm_compute. constructor. }
  exact (main_prompt_is_argument 0 [113] ["player"] [] "player" "clip.mp4" ""
           (console ("clip.mp4" ++ nl)) (console "") L eq_refl eq_refl).
Defined.

Lemma jump_prompt_any_number_witness :
  loop_player (handle_key 0 103 clip_loaded
                 (typed (Int.to_string 7) nl (console "")) false)
  = snd (seekToFrame clip_loaded (7 - 1))
  /\ loop_player (handle_key 0 103 clip_loaded
                    (typed (Int.to_string 11) nl (console "")) false)
     = clip_loaded.
Proof.
  assert (R7 : Int.in_range 7) by (vm_compute; split; discriminate).
  assert (R11 : Int.in_range 11) by (vm_compute; split; discriminate).
  assert (I7 : 1 <= 7 <= totalFrames clip_loaded)
    by (vm_compute; split; discriminate).
  assert (O11 : 11 < 1 \/ totalFrames clip_loaded < 11)
    by (right; reflexivity).
  exact (conj
           (proj1 (proj1 (jump_prompt_any_number clip_loaded (console "")
                            0 103 7 false nl (or_introl eq_refl) R7 eq_refl)
                         I7))
           (proj1 (proj1 (proj2 (jump_prompt_any_number clip_loaded (console "")
                                   0 103 11 false nl (or_introl eq_refl) R11
                                   eq_refl))
                         O11))).
Defined.

Lemma playback_runs_to_last_frame_witness :
  currentFrameNumber
    (fst (fst (startPlayback 0 (32 :: repeat (-1) 11 ++ [113])
                 clip_loaded (console ""))))
  = totalFrames clip_loaded - 1
  /\ snd (startPlayback 0 (32 :: repeat (-1) 11 ++ [113])
            clip_loaded (console "")) = true.
Proof.
  assert (N : (Z.to_nat (totalFrames clip_loaded - 1
                         - currentFrameNumber clip_loaded) <= 11)%nat).
  { vm_compute. repeat constructor. }
  exact (playback_runs_to_last_frame 0 11 clip_loaded (console "")
           eq_refl clip_total_in_range clip_loaded_position eq_refl N).
Defined.

(** [waiting_report] after a failed step back from frame 4 of [gap.mp4]:
    the loop waits at frame number 3 with no image held, so that pass shows
    nothing and prints the status line of frame 4 of 10. *)
Lemma waiting_report_witness :
  exists pre d,
    out (snd (fst (playback_loop 0 [97] gap_at_4 (console "") false)))
    = (pre
       ++ []
       ++ [Cout (Str (cr ++ "Frame: ")); Cout (Num 4); Cout (Str "/");
           Cout (Num 10); Cout (Str " ("); Cout (DblFixed1 40);
           Cout (Str "%)"); Cout Flush]
       ++ [WaitKey d])%list
    /\ (d = 0 \/ d = 33).
Proof.
  exact (waiting_report 0 [97] gap_at_4 (console "") false eq_refl).
Defined.

(** The window can show another frame than the one the status line
    names: in the run above the only image shown is frame 4 under
    "Frame: 5/10", while the loop waits at frame number 3. *)
Example window_can_be_stale :
  currentFrameNumber
    (fst (fst (playback_loop 0 [97] gap_at_4 (console "") false))) = 3
  /\ filter (fun e => match e with ImShow _ _ _ => true | _ => false end)
            (out (snd (fst (playback_loop 0 [97] gap_at_4 (console "") false))))
     = [ImShow "Simple Video Player" (Mem.frame 4) "Frame: 5/10"].
Proof. vm_compute. split; reflexivity. Qed.

(** The overlay and the status line count frames from 1. *)
Example frame_report_at_5 :
  frame_report clip_at_5
  = [ImShow "Simple Video Player" (Mem.frame 5) "Frame: 6/10";
     Cout (Str (cr ++ "Frame: ")); Cout (Num 6); Cout (Str "/");
     Cout (Num 10); Cout (Str " ("); Cout (DblFixed1 60); Cout (Str "%)");
     Cout Flush].
Proof. vm_compute. reflexivity. Qed.

End FurtherRuns.
